(** * BigQuery writer: failure-safe processing of extracted invoices

    A shallow embedding of
    [functions/gcp/v1/src/functions/bigquery_writer/main.py]:
    the Cloud Run entry point [handle_invoice_extracted], the failure
    capture helpers [_write_failure_to_bucket], [_create_error_record],
    [_generate_remediation_hints] and [_generate_error_filename].

    Python [str] values are modelled as [string]; one [ascii] stands for one
    code point below 256, a range in which the regular-expression class
    [\d] is exactly ['0'..'9']. *)

From Stdlib Require Import String Ascii List ZArith Lia Bool DecimalString Sorted.
From Stdlib Require Import Floats.PrimFloat.
From stdpp Require Import base option list gmap strings.

Import ListNotations.
Local Open Scope string_scope.
Local Open Scope Z_scope.

(** ** Python built-ins used by the module *)

Module str.

(** [bool(s)]: a string is truthy when it is not empty. *)
Definition truthy (s : string) : bool :=
  match s with EmptyString => false | String _ _ => true end.

(** [s.split(sep)] for a one-character separator. *)
Fixpoint split (sep : ascii) (s : string) : list string :=
  match s with
  | EmptyString => [EmptyString]
  | String c s' =>
      if Ascii.eqb c sep then EmptyString :: split sep s'
      else match split sep s' with
           | w :: ws => String c w :: ws
           | [] => [String c EmptyString]
           end
  end.

(** [s.rfind(c)]: the highest index of [c], or [-1]. *)
Fixpoint rfind (c : ascii) (s : string) : Z :=
  match s with
  | EmptyString => -1
  | String a s' =>
      let r := rfind c s' in
      if 0 <=? r then r + 1 else if Ascii.eqb a c then 0 else -1
  end.

(** [s[:i]] for [0 <= i]. *)
Definition take (i : Z) (s : string) : string :=
  String.substring 0 (Z.to_nat i) s.

(** [s[:n]] for a literal bound. *)
Definition truncate (n : nat) (s : string) : string :=
  String.substring 0 n s.

(** [s[n:]]. *)
Fixpoint drop (n : nat) (s : string) : string :=
  match n, s with
  | O, _ => s
  | S _, EmptyString => EmptyString
  | S k, String _ s' => drop k s'
  end.

(** [needle in hay]. *)
Fixpoint contains (needle hay : string) : bool :=
  String.prefix needle hay
  || match hay with
     | EmptyString => false
     | String _ hay' => contains needle hay'
     end.

(** [sep.join(parts)]. *)
Definition join (sep : string) (parts : list string) : string :=
  String.concat sep parts.

(** [str(n)] for an [int]. *)
Definition of_int (n : Z) : string :=
  DecimalString.NilZero.string_of_int (Z.to_int n).

(** Decimal rendering left-padded with zeros to [width] characters, as the
    [%02d]-style fields of [strftime] and [isoformat] do. *)
Definition zero_padded (width : nat) (n : Z) : string :=
  let digits := of_int n in
  let missing := (width - String.length digits)%nat in
  String.concat EmptyString (repeat "0" missing) ++ digits.

End str.

(** [pathlib.PurePosixPath]: only what [Path(p).stem] needs. *)
Module pathlib.

(** The components of the path: the pieces between slashes, without the
    empty ones and the ["."] ones. *)
Definition tail (p : string) : list string :=
  List.filter (fun x => negb (x =? "")%string && negb (x =? ".")%string)
              (str.split "/" p).

(** [Path(p).name]: the final component, [""] when there is none. *)
Definition name (p : string) : string := List.last (tail p) "".

(** [Path(p).stem]: the final component without its last suffix.  A leading
    dot or a trailing dot does not start a suffix. *)
Definition stem (p : string) : string :=
  let name := name p in
  let i := str.rfind "." name in
  if (0 <? i) && (i <? Z.of_nat (String.length name) - 1)
  then str.take i name
  else name.

End pathlib.

(** [re]: the one pattern of the module, [_page\d+$], as a backtracking
    matcher. *)
Module re.

(** [\d] *)
Definition is_digit (c : ascii) : bool :=
  let n := nat_of_ascii c in (48 <=? n)%nat && (n <=? 57)%nat.

(** [$] without [re.MULTILINE]: the end of the string, or the position just
    before a line feed that ends the string. *)
Definition at_end (s : string) : bool :=
  match s with
  | EmptyString => true
  | String c EmptyString => Ascii.eqb c "010"
  | String _ (String _ _) => false
  end.

(** [\d*$], greedy: take a digit and go on; when that fails give the digit
    back and try [$] here.  The result is the number of characters
    matched. *)
Fixpoint digits_then_end (s : string) : option nat :=
  match s with
  | String c s' =>
      if is_digit c then
        match digits_then_end s' with
        | Some n => Some (S n)
        | None => if at_end s then Some O else None
        end
      else if at_end s then Some O else None
  | EmptyString => Some O
  end.

(** [_page\d+$] tried at the start of [s]: the length of the match. *)
Definition match_page_suffix (s : string) : option nat :=
  if String.prefix "_page" s then
    match str.drop 5 s with
    | String c s' =>
        if is_digit c
        then match digits_then_end s' with
             | Some n => Some (6 + n)%nat
             | None => None
             end
        else None
    | EmptyString => None
    end
  else None.

(** [re.sub(r"_page\d+$", "", s)]: scan from the left, drop every match and
    resume after it.  [skip] counts the characters of the current match
    that are still to be dropped. *)
Fixpoint sub_page_suffix_from (skip : nat) (s : string) : string :=
  match s with
  | EmptyString => EmptyString
  | String c s' =>
      match skip with
      | S k => sub_page_suffix_from k s'
      | O =>
          match match_page_suffix s with
          | Some (S k) => sub_page_suffix_from k s'
          | _ => String c (sub_page_suffix_from O s')
          end
      end
  end.

Definition sub_page_suffix (s : string) : string :=
  sub_page_suffix_from O s.

End re.

(** [datetime.datetime], naive or UTC. *)
Record datetime : Type := mk_datetime {
  year : Z;
  month : Z;
  day : Z;
  hour : Z;
  minute : Z;
  second : Z;
  microsecond : Z
}.

(** [dt.strftime("%Y%m%d_%H%M%S")], for a year of four digits. *)
Definition strftime_Ymd_HMS (dt : datetime) : string :=
  str.zero_padded 4 (year dt) ++ str.zero_padded 2 (month dt)
  ++ str.zero_padded 2 (day dt) ++ "_"
  ++ str.zero_padded 2 (hour dt) ++ str.zero_padded 2 (minute dt)
  ++ str.zero_padded 2 (second dt).

(** [dt.isoformat()] for a [datetime] in UTC: the fraction is printed only
    when the microseconds are not zero. *)
Definition isoformat_utc (dt : datetime) : string :=
  str.zero_padded 4 (year dt) ++ "-" ++ str.zero_padded 2 (month dt)
  ++ "-" ++ str.zero_padded 2 (day dt) ++ "T"
  ++ str.zero_padded 2 (hour dt) ++ ":" ++ str.zero_padded 2 (minute dt)
  ++ ":" ++ str.zero_padded 2 (second dt)
  ++ (if microsecond dt =? 0 then "" else "." ++ str.zero_padded 6 (microsecond dt))
  ++ "+00:00".

(** ** [_generate_error_filename] *)

(** [now] is the value [datetime.now()] returns when the function asks for
    it. *)
Definition _generate_error_filename
    (now : datetime) (source_file invoice_id : string) : string :=
  if str.truthy source_file && negb (source_file =? "unknown")%string then
    let base_name := pathlib.stem source_file in
    let base_name := re.sub_page_suffix base_name in
    base_name ++ ".error.json"
  else if str.truthy invoice_id && negb (invoice_id =? "unknown")%string then
    invoice_id ++ ".error.json"
  else
    "unknown_" ++ strftime_Ymd_HMS now ++ ".error.json".

(** ** Data model *)

#[local] Set Warnings "-register-all".

(** A decoded JSON document, and any plain Python value built from [dict],
    [list], [str], numbers, [bool] and [None].  A [dict] keeps its insertion
    order. *)
Inductive json : Type :=
  | JNull
  | JBool (b : bool)
  | JInt (n : Z)
  | JFloat (x : float)
  | JStr (s : string)
  | JList (items : list json)
  | JDict (entries : list (string * json)).

(** [d.keys()] *)
Definition keys (d : json) : list string :=
  match d with
  | JDict entries => List.map fst entries
  | _ => []
  end.

(** [d.get(k)] *)
Fixpoint assoc (k : string) (entries : list (string * json)) : option json :=
  match entries with
  | [] => None
  | (k', v) :: rest => if (k =? k')%string then Some v else assoc k rest
  end.

Definition get (k : string) (d : json) : option json :=
  match d with
  | JDict entries => assoc k entries
  | _ => None
  end.

(** One element of the [loc] tuple of a pydantic error: a field name or a
    list index. *)
Inductive LocItem : Type :=
  | LocStr (s : string)
  | LocInt (i : Z).

(** [str(loc)] *)
Definition str_of_loc (l : LocItem) : string :=
  match l with
  | LocStr s => s
  | LocInt i => str.of_int i
  end.

(** One entry of [ValidationError.errors()].  [input] is [None] when the entry
    has no ["input"] key, and otherwise holds [str(err["input"])]. *)
Module ErrorDetails.
Record t : Type := mk {
  loc : list LocItem;
  type : string;
  msg : string;
  input : option string
}.
End ErrorDetails.

(** The exceptions the module sees: instances of [Exception] and of its
    subclasses, the ones an [except Exception] clause catches.
    [ValidationError] is pydantic's, with its [str(e)] and its [e.errors()];
    [RuntimeError] is the one the handler raises itself; every other class is
    given by its [__name__] and its [str(e)]. *)
Inductive Exception : Type :=
  | ValidationError (text : string) (errors : list ErrorDetails.t)
  | RuntimeError (text : string)
  | OtherException (class_name : string) (text : string).

(** [isinstance(error, ValidationError)] *)
Definition is_ValidationError (error : Exception) : bool :=
  match error with
  | ValidationError _ _ => true
  | _ => false
  end.

(** [type(error).__name__] *)
Definition type_name (error : Exception) : string :=
  match error with
  | ValidationError _ _ => "ValidationError"
  | RuntimeError _ => "RuntimeError"
  | OtherException class_name _ => class_name
  end.

(** [str(error)] *)
Definition str_of_exception (error : Exception) : string :=
  match error with
  | ValidationError text _ => text
  | RuntimeError text => text
  | OtherException _ text => text
  end.

(** [shared.schemas]: the [VendorType] enum, by the [value] of the member. *)
Module VendorType.
Record t : Type := mk { value : string }.
End VendorType.

(** [shared.schemas.messages.InvoiceExtractedMessage] *)
Module InvoiceExtractedMessage.
Record t : Type := mk {
  source_file : string;
  vendor_type : VendorType.t;
  extraction_model : string;
  extraction_latency_ms : Z;
  confidence_score : float;
  extracted_data : json
}.
End InvoiceExtractedMessage.

(** [shared.schemas.invoice.ExtractedInvoice]; [total_amount] is a [Decimal],
    kept as coefficient and exponent, and the line items stay opaque. *)
Module ExtractedInvoice.
Record t : Type := mk {
  invoice_id : string;
  vendor_type : VendorType.t;
  total_amount : Z * Z;
  line_items : list json
}.
End ExtractedInvoice.

(** The result object of [write_invoice_to_bigquery]. *)
Module WriteResult.
Record t : Type := mk {
  success : bool;
  is_duplicate : bool;
  rows_written : Z;
  error : option string
}.
End WriteResult.

(** [shared.utils.get_config()] *)
Module Config.
Record t : Type := mk {
  project_id : string;
  dataset : string;
  invoices_table : string;
  line_items_table : string;
  metrics_table : string;
  failed_bucket : string
}.
End Config.

(** The adapters are handles on a project. *)
Record GCPBigQueryAdapter : Type := mk_bq { bq_project_id : string }.
Record GCSAdapter : Type := mk_gcs { gcs_project_id : string }.

(** The CloudEvent delivered by Pub/Sub. *)
Record CloudEvent : Type := mk_cloud_event { data : json }.

(** The [vendor_type] argument of [write_extraction_metrics]: the enum member
    of the message, or a plain string on the failure path. *)
Inductive VendorArg : Type :=
  | VendorMember (v : VendorType.t)
  | VendorName (s : string).

(** The keyword arguments of [write_invoice_to_bigquery]. *)
Module InvoiceArgs.
Record t : Type := mk {
  invoice : ExtractedInvoice.t;
  bq_adapter : GCPBigQueryAdapter;
  dataset : string;
  invoices_table : string;
  line_items_table : string;
  source_file : string;
  extraction_model : string;
  extraction_latency_ms : Z;
  confidence_score : float
}.
End InvoiceArgs.

(** The keyword arguments of [write_extraction_metrics]. *)
Module MetricsArgs.
Record t : Type := mk {
  bq_adapter : GCPBigQueryAdapter;
  dataset : string;
  metrics_table : string;
  invoice_id : string;
  vendor_type : VendorArg;
  source_file : string;
  extraction_model : string;
  extraction_latency_ms : Z;
  confidence_score : float;
  success : bool;
  error_message : option string
}.
End MetricsArgs.

(** ** The collaborators *)

(** What a call gives back: a value, or a raised exception. *)
Inductive result (A : Type) : Type :=
  | Ok (a : A)
  | Raise (e : Exception).
Arguments Ok {A} a.
Arguments Raise {A} e.

Definition is_ok {A : Type} (r : result A) : bool :=
  match r with Ok _ => true | Raise _ => false end.

(** How everything outside [main.py] behaves during one invocation: the
    configuration, the adapters, the pydantic models, the functions of
    [writer.py], the object store and the clock. *)
Record World : Type := mk_world {
  (** [get_config()] *)
  w_get_config : result Config.t;
  (** [GCPBigQueryAdapter(project_id=...)] *)
  w_bigquery_adapter : string → result GCPBigQueryAdapter;
  (** [json.loads(base64.b64decode(cloud_event.data["message"]["data"]))] *)
  w_decode : CloudEvent → result json;
  (** [InvoiceExtractedMessage.model_validate] *)
  w_validate_message : json → result InvoiceExtractedMessage.t;
  (** [ExtractedInvoice.model_validate] *)
  w_validate_invoice : json → result ExtractedInvoice.t;
  (** [write_invoice_to_bigquery] *)
  w_write_invoice : InvoiceArgs.t → result WriteResult.t;
  (** [write_extraction_metrics] *)
  w_write_metrics : MetricsArgs.t → result unit;
  (** [GCSAdapter(project_id=...)] *)
  w_gcs_adapter : string → result GCSAdapter;
  (** [storage.write(bucket, path, data, content_type)] *)
  w_storage_write : GCSAdapter → string → string → json → string → result string;
  (** [datetime.now(timezone.utc)] in [_write_failure_to_bucket] *)
  w_now_utc : datetime;
  (** [datetime.now()] in [_generate_error_filename] *)
  w_now : datetime
}.

(** The calls that leave [main.py], in the order they are made, each with
    what it gave back. *)
Inductive Event : Type :=
  | EvGetConfig (r : result Config.t)
  | EvBigQueryAdapter (project_id : string) (r : result GCPBigQueryAdapter)
  | EvDecode (cloud_event : CloudEvent) (r : result json)
  | EvValidateMessage (raw_message : json) (r : result InvoiceExtractedMessage.t)
  | EvValidateInvoice (extracted_data : json) (r : result ExtractedInvoice.t)
  | EvWriteInvoice (args : InvoiceArgs.t) (r : result WriteResult.t)
  | EvWriteMetrics (args : MetricsArgs.t) (r : result unit)
  | EvGCSAdapter (project_id : string) (r : result GCSAdapter)
  | EvStorageWrite (bucket path : string) (data : json) (content_type : string)
                   (r : result string).

(** ** Control flow: local variables, the trace and exceptions *)

(** The local variables of [handle_invoice_extracted] that its [except] clause
    reads.  [raw_message] and [message] are [None] until the [try] body binds
    them: ["message" in dir()] is [is_Some]. *)
Record Locals : Type := mk_locals {
  source_file : string;
  invoice_id : string;
  raw_message : option json;
  message : option InvoiceExtractedMessage.t
}.

Record State : Type := mk_state {
  locals : Locals;
  trace : list Event
}.

(** A computation runs from a state to a value or an exception; the state it
    leaves is kept when it raises. *)
Definition M (A : Type) : Type := State → result A * State.

Global Instance M_ret : MRet M := λ A a s, (Ok a, s).

Global Instance M_bind : MBind M := λ A B f m s,
  match m s with
  | (Ok a, s') => f a s'
  | (Raise e, s') => (Raise e, s')
  end.

(** [raise e] *)
Definition raise {A : Type} (e : Exception) : M A := λ s, (Raise e, s).

(** [try: body except Exception as e: handler] *)
Definition try_except {A : Type} (body : M A) (handler : Exception → M A) : M A :=
  λ s, match body s with
       | (Ok a, s') => (Ok a, s')
       | (Raise e, s') => handler e s'
       end.

(** A call to a collaborator: it is recorded with its outcome. *)
Definition call {A : Type} (ev : result A → Event) (r : result A) : M A :=
  λ s, (r, mk_state (locals s) (trace s ++ [ev r])%list).

Definition read_locals : M Locals := λ s, (Ok (locals s), s).

Definition assign (f : Locals → Locals) : M unit :=
  λ s, (Ok tt, mk_state (f (locals s)) (trace s)).

Definition set_source_file (v : string) (l : Locals) : Locals :=
  mk_locals v (invoice_id l) (raw_message l) (message l).
Definition set_invoice_id (v : string) (l : Locals) : Locals :=
  mk_locals (source_file l) v (raw_message l) (message l).
Definition set_raw_message (v : json) (l : Locals) : Locals :=
  mk_locals (source_file l) (invoice_id l) (Some v) (message l).
Definition set_message (v : InvoiceExtractedMessage.t) (l : Locals) : Locals :=
  mk_locals (source_file l) (invoice_id l) (raw_message l) (Some v).

(** ** [_generate_remediation_hints] *)

Definition generic_hint : string :=
  "Manual review required - error pattern not recognized.".

Definition numeric_hint (field : string) : string :=
  "Field '" ++ field ++ "' has numeric constraint violation. "
  ++ "Check if this is a discount/credit that should be handled differently.".

Definition missing_hint (field : string) : string :=
  "Required field '" ++ field ++ "' is missing. "
  ++ "Review extraction prompt for this field.".

Definition wrong_type_hint (field : string) : string :=
  "Field '" ++ field ++ "' has wrong type. "
  ++ "Check LLM output format for this field.".

(** [".".join(str(loc) for loc in err["loc"])] *)
Definition field_of (err : ErrorDetails.t) : string :=
  str.join "." (List.map str_of_loc (ErrorDetails.loc err)).

(** The body of the loop: what one entry of [error.errors()] does to
    [hints]. *)
Definition add_hint (hints : list string) (err : ErrorDetails.t) : list string :=
  let field := field_of err in
  let error_type := ErrorDetails.type err in
  if str.contains "greater_than" error_type || str.contains "less_than" error_type
  then (hints ++ [numeric_hint field])%list
  else if str.contains "missing" error_type
  then (hints ++ [missing_hint field])%list
  else if str.contains "string_type" error_type || str.contains "type_error" error_type
  then (hints ++ [wrong_type_hint field])%list
  else hints.

Definition _generate_remediation_hints (error : Exception) : list string :=
  let hints := [] in
  let hints :=
    match error with
    | ValidationError _ errors => List.fold_left add_hint errors hints
    | _ => hints
    end in
  let hints :=
    match hints with
    | [] => (hints ++ [generic_hint])%list
    | _ :: _ => hints
    end in
  hints.

(** ** [_create_error_record] *)

(** One element of [validation_details["errors"]]. *)
Definition validation_entry (err : ErrorDetails.t) : json :=
  JDict [ ("field", JStr (field_of err));
          ("type", JStr (ErrorDetails.type err));
          ("message", JStr (ErrorDetails.msg err));
          ("input", JStr (str.truncate 200 (default "" (ErrorDetails.input err)))) ].

Definition _create_error_record
    (source_file invoice_id : string) (error : Exception) (raw_message : json)
    (message : option InvoiceExtractedMessage.t) (timestamp : datetime) : json :=
  let validation_details :=
    match error with
    | ValidationError _ errors =>
        JDict [ ("error_count", JInt (Z.of_nat (List.length errors)));
                ("errors", JList (List.map validation_entry errors)) ]
    | _ => JNull
    end in
  let '(vendor_type, extraction_model, confidence_score, extracted_data) :=
    match message with
    | Some message =>
        (VendorType.value (InvoiceExtractedMessage.vendor_type message),
         InvoiceExtractedMessage.extraction_model message,
         InvoiceExtractedMessage.confidence_score message,
         InvoiceExtractedMessage.extracted_data message)
    | None => ("unknown", "unknown", 0%float, JDict [])
    end in
  JDict [
    ("error_metadata", JDict [
       ("timestamp", JStr (isoformat_utc timestamp));
       ("failed_stage", JStr "bigquery-writer");
       ("error_type", JStr (type_name error));
       ("error_message", JStr (str_of_exception error));
       ("is_validation_error", JBool (is_ValidationError error));
       ("validation_details", validation_details) ]);
    ("invoice_context", JDict [
       ("source_file", JStr source_file);
       ("invoice_id", JStr invoice_id);
       ("vendor_type", JStr vendor_type);
       ("extraction_model", JStr extraction_model);
       ("confidence_score", JFloat confidence_score) ]);
    ("extracted_data", extracted_data);
    ("raw_message", raw_message);
    ("remediation_hints", JList (List.map JStr (_generate_remediation_hints error)))
  ].

(** ** [_write_failure_to_bucket] *)

(** The [data] of the storage call stands for
    [json.dumps(error_record, indent=2, default=str).encode("utf-8")]. *)
Definition _write_failure_to_bucket
    (w : World) (config : Config.t) (source_file invoice_id : string)
    (error : Exception) (raw_message : json)
    (message : option InvoiceExtractedMessage.t) : M string :=
  storage ← call (EvGCSAdapter (Config.project_id config))
                 (w_gcs_adapter w (Config.project_id config));
  let timestamp := w_now_utc w in
  let error_record :=
    _create_error_record source_file invoice_id error raw_message message timestamp in
  let error_filename := _generate_error_filename (w_now w) source_file invoice_id in
  gcs_uri ← call (EvStorageWrite (Config.failed_bucket config) error_filename
                                 error_record "application/json")
                 (w_storage_write w storage (Config.failed_bucket config)
                                  error_filename error_record "application/json");
  mret gcs_uri.

(** ** [handle_invoice_extracted] *)

(** [f"{result.error}"] *)
Definition format_optional (o : option string) : string :=
  match o with
  | Some s => s
  | None => "None"
  end.

(** The [try] body, lines 69 to 151.  The calls to [logger] only read fields
    of the validated models and of the result; they are left out, here and in
    the [except] clause. *)
Definition process_message
    (w : World) (cloud_event : CloudEvent) (config : Config.t)
    (bq_adapter : GCPBigQueryAdapter) : M unit :=
  raw_message ← call (EvDecode cloud_event) (w_decode w cloud_event);
  assign (set_raw_message raw_message);;
  message ← call (EvValidateMessage raw_message) (w_validate_message w raw_message);
  assign (set_message message);;
  assign (set_source_file (InvoiceExtractedMessage.source_file message));;
  l ← read_locals;
  let source_file := source_file l in
  invoice ← call (EvValidateInvoice (InvoiceExtractedMessage.extracted_data message))
                 (w_validate_invoice w (InvoiceExtractedMessage.extracted_data message));
  assign (set_invoice_id (ExtractedInvoice.invoice_id invoice));;
  l ← read_locals;
  let invoice_id := invoice_id l in
  let invoice_args :=
    InvoiceArgs.mk invoice bq_adapter (Config.dataset config)
      (Config.invoices_table config) (Config.line_items_table config)
      source_file
      (InvoiceExtractedMessage.extraction_model message)
      (InvoiceExtractedMessage.extraction_latency_ms message)
      (InvoiceExtractedMessage.confidence_score message) in
  result ← call (EvWriteInvoice invoice_args) (w_write_invoice w invoice_args);
  (if negb (WriteResult.success result)
   then raise (RuntimeError ("BigQuery write failed: "
                             ++ format_optional (WriteResult.error result)))
   else mret tt);;
  let metrics_args :=
    MetricsArgs.mk bq_adapter (Config.dataset config) (Config.metrics_table config)
      invoice_id
      (VendorMember (InvoiceExtractedMessage.vendor_type message))
      source_file
      (InvoiceExtractedMessage.extraction_model message)
      (InvoiceExtractedMessage.extraction_latency_ms message)
      (InvoiceExtractedMessage.confidence_score message)
      true None in
  call (EvWriteMetrics metrics_args) (w_write_metrics w metrics_args);;
  mret tt.

(** The arguments of the metrics call of the [except] clause. *)
Definition failure_metrics_args
    (config : Config.t) (bq_adapter : GCPBigQueryAdapter) (l : Locals)
    (e : Exception) : MetricsArgs.t :=
  MetricsArgs.mk bq_adapter (Config.dataset config) (Config.metrics_table config)
    (invoice_id l)
    (match message l with
     | Some message => VendorMember (InvoiceExtractedMessage.vendor_type message)
     | None => VendorName "other"
     end)
    (source_file l)
    (match message l with
     | Some message => InvoiceExtractedMessage.extraction_model message
     | None => "unknown"
     end)
    (match message l with
     | Some message => InvoiceExtractedMessage.extraction_latency_ms message
     | None => 0
     end)
    0%float
    false
    (Some (str_of_exception e)).

(** The [except Exception as e] clause, lines 153 to 208. *)
Definition handle_failure
    (w : World) (config : Config.t) (bq_adapter : GCPBigQueryAdapter)
    (e : Exception) : M unit :=
  try_except
    (l ← read_locals;
     let metrics_args := failure_metrics_args config bq_adapter l e in
     call (EvWriteMetrics metrics_args) (w_write_metrics w metrics_args))
    (λ _, mret tt);;
  try_except
    (l ← read_locals;
     _write_failure_to_bucket w config (source_file l) (invoice_id l) e
       (default (JDict []) (raw_message l)) (message l);;
     mret tt)
    (λ write_error, mret tt).

Definition handle_invoice_extracted (w : World) (cloud_event : CloudEvent) : M unit :=
  config ← call EvGetConfig (w_get_config w);
  bq_adapter ← call (EvBigQueryAdapter (Config.project_id config))
                    (w_bigquery_adapter w (Config.project_id config));
  assign (set_source_file "unknown");;
  assign (set_invoice_id "unknown");;
  try_except
    (process_message w cloud_event config bq_adapter)
    (handle_failure w config bq_adapter).

(** One invocation: no local is bound and nothing has been called yet. *)
Definition initial_state : State :=
  mk_state (mk_locals "" "" None None) [].

Definition run (w : World) (cloud_event : CloudEvent) : result unit * list Event :=
  let '(r, s) := handle_invoice_extracted w cloud_event initial_state in
  (r, trace s).

Definition outcome (w : World) (cloud_event : CloudEvent) : result unit :=
  fst (run w cloud_event).

Definition events (w : World) (cloud_event : CloudEvent) : list Event :=
  snd (run w cloud_event).

(** ** What a trace shows *)

(** The calls to [write_extraction_metrics]. *)
Definition metrics_calls (tr : list Event) : list (MetricsArgs.t * result unit) :=
  omap (λ ev, match ev with EvWriteMetrics args r => Some (args, r) | _ => None end) tr.

(** The calls to [write_invoice_to_bigquery]. *)
Definition invoice_writes (tr : list Event) : list (InvoiceArgs.t * result WriteResult.t) :=
  omap (λ ev, match ev with EvWriteInvoice args r => Some (args, r) | _ => None end) tr.

(** The calls to [_write_failure_to_bucket]: each one starts by building its
    [GCSAdapter], and nothing else builds one. *)
Definition failure_bucket_calls (tr : list Event) : list string :=
  omap (λ ev, match ev with EvGCSAdapter project_id _ => Some project_id | _ => None end) tr.

(** The calls to [storage.write], as (bucket, path, data, outcome). *)
Definition storage_writes (tr : list Event)
    : list (string * string * json * result string) :=
  omap (λ ev, match ev with
              | EvStorageWrite bucket path data _ r => Some (bucket, path, data, r)
              | _ => None
              end) tr.

(** The error artifacts that reached the quarantine store: the storage writes
    that returned. *)
Definition artifacts (tr : list Event) : list (string * string * json) :=
  omap (λ '(bucket, path, data, r),
          match r with Ok _ => Some (bucket, path, data) | Raise _ => None end)
       (storage_writes tr).

(** The exception a stage of the [try] body ends with: the one the call
    raised, or the [RuntimeError] the handler raises itself when the invoice
    write reports [success=False]. *)
Definition raised_by (ev : Event) : option Exception :=
  match ev with
  | EvDecode _ (Raise e) => Some e
  | EvValidateMessage _ (Raise e) => Some e
  | EvValidateInvoice _ (Raise e) => Some e
  | EvWriteInvoice _ (Raise e) => Some e
  | EvWriteInvoice _ (Ok result) =>
      if WriteResult.success result then None
      else Some (RuntimeError ("BigQuery write failed: "
                               ++ format_optional (WriteResult.error result)))
  | EvWriteMetrics args (Raise e) =>
      if MetricsArgs.success args then Some e else None
  | _ => None
  end.

(** The exception that sent the attempt to the [except] clause, if any. *)
Definition failure_cause (tr : list Event) : option Exception :=
  List.head (omap raised_by tr).

(** The stages of the success path, numbered in the order of the state
    machine; the calls of the failure path are not stages. *)
Definition stage_of (ev : Event) : option nat :=
  match ev with
  | EvDecode _ _ => Some 1%nat
  | EvValidateMessage _ _ => Some 2%nat
  | EvValidateInvoice _ _ => Some 3%nat
  | EvWriteInvoice _ _ => Some 4%nat
  | EvWriteMetrics args _ => if MetricsArgs.success args then Some 5%nat else None
  | _ => None
  end.

Definition stages (tr : list Event) : list nat := omap stage_of tr.

(** Modelled from the spec: the object store adapter
    ([shared.adapters.GCSAdapter]) is not part of [main.py].  The quarantine
    store holds objects by (bucket, path); a write that returns puts the
    object under its key, replacing the one already there. *)
Definition store_event (store : gmap (string * string) json) (ev : Event)
    : gmap (string * string) json :=
  match ev with
  | EvStorageWrite bucket path data _ (Ok _) => <[(bucket, path) := data]> store
  | _ => store
  end.

Definition store_after (tr : list Event) (store : gmap (string * string) json)
    : gmap (string * string) json :=
  List.fold_left store_event tr store.

(** The arguments the [try] body passes on, once the message and the invoice
    are validated. *)
Definition invoice_args_of
    (config : Config.t) (bq_adapter : GCPBigQueryAdapter)
    (message : InvoiceExtractedMessage.t) (invoice : ExtractedInvoice.t)
    : InvoiceArgs.t :=
  InvoiceArgs.mk invoice bq_adapter (Config.dataset config)
    (Config.invoices_table config) (Config.line_items_table config)
    (InvoiceExtractedMessage.source_file message)
    (InvoiceExtractedMessage.extraction_model message)
    (InvoiceExtractedMessage.extraction_latency_ms message)
    (InvoiceExtractedMessage.confidence_score message).

Definition success_metrics_args_of
    (config : Config.t) (bq_adapter : GCPBigQueryAdapter)
    (message : InvoiceExtractedMessage.t) (invoice : ExtractedInvoice.t)
    : MetricsArgs.t :=
  MetricsArgs.mk bq_adapter (Config.dataset config) (Config.metrics_table config)
    (ExtractedInvoice.invoice_id invoice)
    (VendorMember (InvoiceExtractedMessage.vendor_type message))
    (InvoiceExtractedMessage.source_file message)
    (InvoiceExtractedMessage.extraction_model message)
    (InvoiceExtractedMessage.extraction_latency_ms message)
    (InvoiceExtractedMessage.confidence_score message)
    true None.

(** Decoding, the validation of the envelope or the validation of the invoice
    raises [e]. *)
Definition rejected_before_write (w : World) (ce : CloudEvent) (e : Exception) : Prop :=
  w_decode w ce = Raise e ∨
  (∃ raw, w_decode w ce = Ok raw ∧ w_validate_message w raw = Raise e) ∨
  (∃ raw message,
     w_decode w ce = Ok raw ∧ w_validate_message w raw = Ok message ∧
     w_validate_invoice w (InvoiceExtractedMessage.extracted_data message) = Raise e).

(** The quarantine store takes every write. *)
Definition quarantine_works (w : World) : Prop :=
  (∀ project_id, is_ok (w_gcs_adapter w project_id) = true) ∧
  (∀ storage bucket path data content_type,
     is_ok (w_storage_write w storage bucket path data content_type) = true).

(** ** The words of the specification *)

(** A source file or an invoice id is known when it is neither empty nor the
    placeholder. *)
Definition known (s : string) : Prop := s ≠ "" ∧ s ≠ "unknown".

Fixpoint all_digits (s : string) : bool :=
  match s with
  | EmptyString => true
  | String c s' => re.is_digit c && all_digits s'
  end.

Fixpoint no_line_feed (s : string) : bool :=
  match s with
  | EmptyString => true
  | String c s' => negb (Ascii.eqb c "010") && no_line_feed s'
  end.

(** A page-number suffix: [_page] and one or more digits. *)
Definition page_suffix (t : string) : Prop :=
  ∃ ds, t = "_page" ++ ds ∧ ds ≠ "" ∧ all_digits ds = true.

(** The key the source file alone decides. *)
Definition source_key (source_file : string) : string :=
  re.sub_page_suffix (pathlib.stem source_file) ++ ".error.json".

(** The constraint kinds of the remediation policy. *)
Inductive Constraint : Type :=
  | NumericRange
  | MissingField
  | TypeMismatch.

(** The kind an error type is recognised as, first match first. *)
Definition classify (error_type : string) : option Constraint :=
  if str.contains "greater_than" error_type || str.contains "less_than" error_type
  then Some NumericRange
  else if str.contains "missing" error_type then Some MissingField
  else if str.contains "string_type" error_type || str.contains "type_error" error_type
  then Some TypeMismatch
  else None.

Definition hint_text (kind : Constraint) (field : string) : string :=
  match kind with
  | NumericRange => numeric_hint field
  | MissingField => missing_hint field
  | TypeMismatch => wrong_type_hint field
  end.

(** The hint of one reported error, when its type is recognised. *)
Definition hint_of (err : ErrorDetails.t) : option string :=
  match classify (ErrorDetails.type err) with
  | Some kind => Some (hint_text kind (field_of err))
  | None => None
  end.

(** [e.errors()], empty for any other exception. *)
Definition errors_of (error : Exception) : list ErrorDetails.t :=
  match error with
  | ValidationError _ errors => errors
  | _ => []
  end.

(** ** Sample invocations *)

Definition sample_config : Config.t :=
  Config.mk "invoice-prod" "invoices_ds" "invoices" "line_items" "extraction_metrics"
            "invoice-failed".

Definition sample_extracted_data : json :=
  JDict [ ("invoice_id", JStr "INV-UE-123");
          ("vendor_type", JStr "ubereats");
          ("total_amount", JStr "41.50");
          ("line_items", JList []) ].

Definition sample_raw_message : json :=
  JDict [ ("source_file", JStr "gs://bucket/landing/ubereats_INV-UE-123_page2.tiff");
          ("vendor_type", JStr "ubereats");
          ("extraction_model", JStr "gemini-2.0-flash");
          ("extraction_latency_ms", JInt 1200);
          ("confidence_score", JFloat 0.75%float);
          ("extracted_data", sample_extracted_data) ].

Definition sample_message : InvoiceExtractedMessage.t :=
  InvoiceExtractedMessage.mk "gs://bucket/landing/ubereats_INV-UE-123_page2.tiff"
    (VendorType.mk "ubereats") "gemini-2.0-flash" 1200 0.75%float sample_extracted_data.

Definition sample_invoice : ExtractedInvoice.t :=
  ExtractedInvoice.mk "INV-UE-123" (VendorType.mk "ubereats") (4150, -2) [].

Definition sample_event : CloudEvent :=
  mk_cloud_event (JDict [ ("message", JDict [ ("data", JStr "eyJzb3VyY2VfZmlsZSI6IC4uLn0=") ]) ]).

Definition sample_time : datetime := mk_datetime 2025 3 9 14 7 30 125000.

Definition fresh_write : WriteResult.t := WriteResult.mk true false 1 None.
Definition duplicate_write : WriteResult.t := WriteResult.mk true true 0 None.
Definition failed_write : WriteResult.t :=
  WriteResult.mk false false 0 (Some "403 Access Denied: Table invoices").

(** Every collaborator works and the invoice is new. *)
Definition working_world : World :=
  mk_world (Ok sample_config)
           (λ project_id, Ok (mk_bq project_id))
           (λ _, Ok sample_raw_message)
           (λ _, Ok sample_message)
           (λ _, Ok sample_invoice)
           (λ _, Ok fresh_write)
           (λ _, Ok tt)
           (λ project_id, Ok (mk_gcs project_id))
           (λ _ bucket path _ _, Ok ("gs://" ++ bucket ++ "/" ++ path))
           sample_time sample_time.

Definition with_get_config (r : result Config.t) (w : World) : World :=
  mk_world r (w_bigquery_adapter w) (w_decode w) (w_validate_message w)
           (w_validate_invoice w) (w_write_invoice w) (w_write_metrics w)
           (w_gcs_adapter w) (w_storage_write w) (w_now_utc w) (w_now w).

Definition with_bigquery_adapter (f : string → result GCPBigQueryAdapter) (w : World)
    : World :=
  mk_world (w_get_config w) f (w_decode w) (w_validate_message w)
           (w_validate_invoice w) (w_write_invoice w) (w_write_metrics w)
           (w_gcs_adapter w) (w_storage_write w) (w_now_utc w) (w_now w).

Definition with_decode (f : CloudEvent → result json) (w : World) : World :=
  mk_world (w_get_config w) (w_bigquery_adapter w) f (w_validate_message w)
           (w_validate_invoice w) (w_write_invoice w) (w_write_metrics w)
           (w_gcs_adapter w) (w_storage_write w) (w_now_utc w) (w_now w).

Definition with_validate_invoice (f : json → result ExtractedInvoice.t) (w : World)
    : World :=
  mk_world (w_get_config w) (w_bigquery_adapter w) (w_decode w) (w_validate_message w)
           f (w_write_invoice w) (w_write_metrics w)
           (w_gcs_adapter w) (w_storage_write w) (w_now_utc w) (w_now w).

Definition with_write_invoice (f : InvoiceArgs.t → result WriteResult.t) (w : World)
    : World :=
  mk_world (w_get_config w) (w_bigquery_adapter w) (w_decode w) (w_validate_message w)
           (w_validate_invoice w) f (w_write_metrics w)
           (w_gcs_adapter w) (w_storage_write w) (w_now_utc w) (w_now w).

Definition with_write_metrics (f : MetricsArgs.t → result unit) (w : World) : World :=
  mk_world (w_get_config w) (w_bigquery_adapter w) (w_decode w) (w_validate_message w)
           (w_validate_invoice w) (w_write_invoice w) f
           (w_gcs_adapter w) (w_storage_write w) (w_now_utc w) (w_now w).

Definition with_storage_write
    (f : GCSAdapter → string → string → json → string → result string) (w : World)
    : World :=
  mk_world (w_get_config w) (w_bigquery_adapter w) (w_decode w) (w_validate_message w)
           (w_validate_invoice w) (w_write_invoice w) (w_write_metrics w)
           (w_gcs_adapter w) f (w_now_utc w) (w_now w).

(** The configuration cannot be loaded. *)
Definition unconfigured_world : World :=
  with_get_config (Raise (OtherException "KeyError" "'GCP_PROJECT'")) working_world.

(** The BigQuery client cannot be built. *)
Definition no_credentials_world : World :=
  with_bigquery_adapter
    (λ _, Raise (OtherException "DefaultCredentialsError"
                                "Your default credentials were not found."))
    working_world.

(** The metrics table rejects the success record and takes the failure one. *)
Definition success_metrics_rejected (args : MetricsArgs.t) : result unit :=
  if MetricsArgs.success args
  then Raise (OtherException "ServiceUnavailable" "503 metrics table unavailable")
  else Ok tt.

Definition metrics_down_world : World :=
  with_write_metrics success_metrics_rejected working_world.

(** The invoice is already stored, and the metrics table rejects the success
    record. *)
Definition duplicate_metrics_down_world : World :=
  with_write_invoice (λ _, Ok duplicate_write) metrics_down_world.

(** The invoice is already stored. *)
Definition duplicate_world : World :=
  with_write_invoice (λ _, Ok duplicate_write) working_world.

(** The store refuses the invoice rows. *)
Definition write_refused_world : World :=
  with_write_invoice (λ _, Ok failed_write) working_world.

(** The payload is not JSON, and the quarantine bucket refuses the write. *)
Definition undecodable_quarantine_down_world : World :=
  with_storage_write
    (λ _ _ _ _ _, Raise (OtherException "Forbidden" "403 storage.objects.create denied"))
    (with_decode
       (λ _, Raise (OtherException "JSONDecodeError"
                                   "Expecting value: line 1 column 1 (char 0)"))
       working_world).

(** The extracted data has no invoice id. *)
Definition missing_invoice_id_error : Exception :=
  ValidationError "1 validation error for ExtractedInvoice"
    [ ErrorDetails.mk [LocStr "invoice_id"] "missing" "Field required"
                      (Some "{'vendor_type': 'ubereats'}") ].

Definition missing_invoice_id_world : World :=
  with_validate_invoice (λ _, Raise missing_invoice_id_error) working_world.

(** Two violated fields, one of a kind the hints do not know. *)
Definition mixed_error : Exception :=
  ValidationError "2 validation errors for ExtractedInvoice"
    [ ErrorDetails.mk [LocStr "invoice_id"] "missing" "Field required" None;
      ErrorDetails.mk [LocStr "line_items"; LocInt 0; LocStr "quantity"] "int_parsing"
        "Input should be a valid integer, unable to parse string as an integer"
        (Some "two") ].

(** ** The state machine and what the handler holds *)

(** The calls of the stages in a trace, without the calls of the failure
    path. *)
Definition stage_events (tr : list Event) : list Event :=
  List.filter (λ ev, match stage_of ev with Some _ => true | None => false end) tr.

(** What the state machine asks for: a stage is called exactly when every
    stage before it succeeded, with what the stages before it produced, so
    the first stage that fails is the last one called.  The invoice write
    fails when it raises and when it reports [success=False]. *)
Definition stages_until_failure
    (w : World) (ce : CloudEvent) (config : Config.t) (bq_adapter : GCPBigQueryAdapter)
    : list Event :=
  EvDecode ce (w_decode w ce) ::
  match w_decode w ce with
  | Raise _ => []
  | Ok raw =>
      EvValidateMessage raw (w_validate_message w raw) ::
      match w_validate_message w raw with
      | Raise _ => []
      | Ok message =>
          let extracted_data := InvoiceExtractedMessage.extracted_data message in
          EvValidateInvoice extracted_data (w_validate_invoice w extracted_data) ::
          match w_validate_invoice w extracted_data with
          | Raise _ => []
          | Ok invoice =>
              let invoice_args := invoice_args_of config bq_adapter message invoice in
              EvWriteInvoice invoice_args (w_write_invoice w invoice_args) ::
              match w_write_invoice w invoice_args with
              | Raise _ => []
              | Ok result =>
                  if WriteResult.success result then
                    let metrics_args :=
                      success_metrics_args_of config bq_adapter message invoice in
                    [EvWriteMetrics metrics_args (w_write_metrics w metrics_args)]
                  else []
              end
          end
      end
  end.

(** The source file the handler holds when the [try] body ends: the one of
    the message once the envelope is validated, the placeholder before. *)
Definition held_source_file (w : World) (ce : CloudEvent) : string :=
  match w_decode w ce with
  | Ok raw =>
      match w_validate_message w raw with
      | Ok message => InvoiceExtractedMessage.source_file message
      | Raise _ => "unknown"
      end
  | Raise _ => "unknown"
  end.

(** The invoice id the handler holds when the [try] body ends: the one of
    the invoice once it is validated, the placeholder before. *)
Definition held_invoice_id (w : World) (ce : CloudEvent) : string :=
  match w_decode w ce with
  | Ok raw =>
      match w_validate_message w raw with
      | Ok message =>
          match w_validate_invoice w (InvoiceExtractedMessage.extracted_data message) with
          | Ok invoice => ExtractedInvoice.invoice_id invoice
          | Raise _ => "unknown"
          end
      | Raise _ => "unknown"
      end
  | Raise _ => "unknown"
  end.

(** The payload is not JSON; the quarantine bucket works and the clock says
    [now]. *)
Definition undecodable_world_at (now : datetime) : World :=
  mk_world (Ok sample_config)
           (λ project_id, Ok (mk_bq project_id))
           (λ _, Raise (OtherException "JSONDecodeError"
                                       "Expecting value: line 1 column 1 (char 0)"))
           (λ _, Ok sample_message)
           (λ _, Ok sample_invoice)
           (λ _, Ok fresh_write)
           (λ _, Ok tt)
           (λ project_id, Ok (mk_gcs project_id))
           (λ _ bucket path _ _, Ok ("gs://" ++ bucket ++ "/" ++ path))
           now now.

Definition a_second_later : datetime := mk_datetime 2025 3 9 14 7 31 0.

(** ** Further vocabulary *)

(** The place of a call in the text of [handle_invoice_extracted], calls of
    [_write_failure_to_bucket] included. *)
Definition step_of (ev : Event) : nat :=
  match ev with
  | EvGetConfig _ => 1
  | EvBigQueryAdapter _ _ => 2
  | EvDecode _ _ => 3
  | EvValidateMessage _ _ => 4
  | EvValidateInvoice _ _ => 5
  | EvWriteInvoice _ _ => 6
  | EvWriteMetrics args _ => if MetricsArgs.success args then 7 else 8
  | EvGCSAdapter _ _ => 9
  | EvStorageWrite _ _ _ _ _ => 10
  end%nat.

(** [c not in s] *)
Fixpoint avoids (c : ascii) (s : string) : bool :=
  match s with
  | EmptyString => true
  | String a s' => negb (Ascii.eqb a c) && avoids c s'
  end.

(** Two outcomes of [write_invoice_to_bigquery] that differ at most in
    [is_duplicate] and [rows_written]. *)
Definition same_verdict (r1 r2 : result WriteResult.t) : Prop :=
  match r1, r2 with
  | Ok a, Ok b =>
      WriteResult.success a = WriteResult.success b ∧
      WriteResult.error a = WriteResult.error b
  | Raise e1, Raise e2 => e1 = e2
  | _, _ => False
  end.

(** What an attempt shows outside: how the handler ends, the metrics calls
    and the storage writes. *)
Definition observed (w : World) (ce : CloudEvent)
    : result unit * list (MetricsArgs.t * result unit)
      * list (string * string * json * result string) :=
  (outcome w ce, metrics_calls (events w ce), storage_writes (events w ce)).

(** The arguments of the metrics call of the [except] clause when the message
    was not parsed. *)
Definition placeholder_metrics_args
    (config : Config.t) (bq_adapter : GCPBigQueryAdapter) (e : Exception)
    : MetricsArgs.t :=
  MetricsArgs.mk bq_adapter (Config.dataset config) (Config.metrics_table config)
    "unknown" (VendorName "other") "unknown" "unknown" 0 0%float false
    (Some (str_of_exception e)).

Definition with_gcs_adapter (f : string → result GCSAdapter) (w : World) : World :=
  mk_world (w_get_config w) (w_bigquery_adapter w) (w_decode w) (w_validate_message w)
           (w_validate_invoice w) (w_write_invoice w) (w_write_metrics w)
           f (w_storage_write w) (w_now_utc w) (w_now w).

(** A message that names no source file, and a store that refuses its
    rows. *)
Definition unnamed_message : InvoiceExtractedMessage.t :=
  InvoiceExtractedMessage.mk "unknown" (VendorType.mk "grubhub") "gemini-2.0-flash"
    900 0.5%float (JDict [("invoice_id", JStr "INV-GH-456")]).

Definition unnamed_invoice : ExtractedInvoice.t :=
  ExtractedInvoice.mk "INV-GH-456" (VendorType.mk "grubhub") (1999, -2) [].

Definition unnamed_refused_world : World :=
  mk_world (Ok sample_config)
           (λ project_id, Ok (mk_bq project_id))
           (λ _, Ok (JDict []))
           (λ _, Ok unnamed_message)
           (λ _, Ok unnamed_invoice)
           (λ _, Ok failed_write)
           (λ _, Ok tt)
           (λ project_id, Ok (mk_gcs project_id))
           (λ _ bucket path _ _, Ok ("gs://" ++ bucket ++ "/" ++ path))
           sample_time sample_time.

(** The store refuses the rows, and the metrics table rejects the failure
    record. *)
Definition failure_metrics_rejected (args : MetricsArgs.t) : result unit :=
  if MetricsArgs.success args
  then Ok tt
  else Raise (OtherException "ServiceUnavailable" "503 metrics table unavailable").

Definition failure_metrics_down_world : World :=
  with_write_metrics failure_metrics_rejected write_refused_world.

(** * Properties *)

(** ** Running the handler symbolically *)

Ltac unfold_handler :=
  unfold outcome, events, run, handle_invoice_extracted, process_message,
    handle_failure, _write_failure_to_bucket, try_except, call, assign,
    read_locals, raise, mbind, M_bind, mret, M_ret, initial_state;
  simpl.

(** Split on what the next collaborator gives back, or on the [success] flag
    the handler tests. *)
Ltac case_call :=
  match goal with
  | |- context [match ?r with Ok _ => _ | Raise _ => _ end] =>
      let E := fresh "E" in destruct r eqn:E; simpl
  | |- context [if negb (WriteResult.success ?r) then _ else _] =>
      let E := fresh "E" in destruct (WriteResult.success r) eqn:E; simpl
  end.

Ltac after_setup Hconfig Hadapter :=
  unfold_handler; rewrite Hconfig; simpl; rewrite Hadapter; simpl.

(** Once the configuration is loaded and the BigQuery adapter is built, the
    handler returns whatever the other collaborators do: every exception of
    the [try] body is caught, and so is every exception of the two calls of
    the [except] clause. *)
Lemma handler_returns_after_setup w ce config bq :
  w_get_config w = Ok config →
  w_bigquery_adapter w (Config.project_id config) = Ok bq →
  outcome w ce = Ok tt.
Proof.
  intros Hconfig Hadapter. after_setup Hconfig Hadapter.
  repeat case_call; try reflexivity.
  all: match goal with a : unit |- _ => destruct a; reflexivity end.
Qed.

(** When the configuration or the adapter fails, nothing else is called. *)
Lemma events_setup_failure w ce e :
  (w_get_config w = Raise e →
   run w ce = (Raise e, [EvGetConfig (Raise e)])) ∧
  (∀ config,
     w_get_config w = Ok config →
     w_bigquery_adapter w (Config.project_id config) = Raise e →
     run w ce = (Raise e, [EvGetConfig (Ok config);
                           EvBigQueryAdapter (Config.project_id config) (Raise e)])).
Proof.
  split.
  - intros H. unfold_handler. rewrite H. reflexivity.
  - intros config Hc Hb. unfold_handler. rewrite Hc. simpl. rewrite Hb. reflexivity.
Qed.

(** ** C1: the boundary of the handler *)

(** C1 (defect). The docstring of [handle_invoice_extracted] promises that the
    function does not raise.  With a configuration that cannot be loaded,
    [get_config()] raises before the [try] statement is entered and the
    exception leaves the handler: the claim fails at this invocation. *)
Theorem handler_raises_when_config_fails :
  outcome unconfigured_world sample_event
  = Raise (OtherException "KeyError" "'GCP_PROJECT'").
Proof. reflexivity. Qed.

(** ** C10: what runs before the [try] statement *)

(** C10. [get_config()] and the construction of the BigQuery adapter run
    before the [try] statement: when either raises, the exception leaves
    [handle_invoice_extracted], and the attempt has no metrics call, no call to
    [_write_failure_to_bucket] and no storage write. *)
Theorem setup_failure_escapes w ce e :
  (w_get_config w = Raise e ∨
   ∃ config, w_get_config w = Ok config ∧
             w_bigquery_adapter w (Config.project_id config) = Raise e) →
  outcome w ce = Raise e ∧
  metrics_calls (events w ce) = [] ∧
  failure_bucket_calls (events w ce) = [] ∧
  storage_writes (events w ce) = [].
Proof.
  intros [H | (config & Hc & Hb)]; unfold outcome, events.
  - rewrite (proj1 (events_setup_failure w ce e) H). repeat split.
  - rewrite (proj2 (events_setup_failure w ce e) config Hc Hb). repeat split.
Qed.

Lemma setup_failure_escapes_witness :
  (outcome unconfigured_world sample_event
   = Raise (OtherException "KeyError" "'GCP_PROJECT'") ∧
   metrics_calls (events unconfigured_world sample_event) = [] ∧
   failure_bucket_calls (events unconfigured_world sample_event) = [] ∧
   storage_writes (events unconfigured_world sample_event) = []) ∧
  (outcome no_credentials_world sample_event
   = Raise (OtherException "DefaultCredentialsError"
                           "Your default credentials were not found.") ∧
   metrics_calls (events no_credentials_world sample_event) = [] ∧
   failure_bucket_calls (events no_credentials_world sample_event) = [] ∧
   storage_writes (events no_credentials_world sample_event) = []).
Proof.
  split.
  - apply (setup_failure_escapes unconfigured_world sample_event).
    left. reflexivity.
  - apply (setup_failure_escapes no_credentials_world sample_event).
    right. exists sample_config. split; reflexivity.
Defined.

(** ** C9: the confidence score of the failure record *)

(** C9. Every metrics call of the [except] clause is made with
    [confidence_score=0.0], whatever the parsed message carries. *)
Theorem failure_metrics_confidence_zero w ce args r :
  In (args, r) (metrics_calls (events w ce)) →
  MetricsArgs.success args = false →
  MetricsArgs.confidence_score args = 0%float.
Proof.
  unfold_handler.
  repeat case_call; simpl; intros Hin Hs;
    repeat match goal with
           | H : _ ∨ _ |- _ => destruct H
           | H : False |- _ => destruct H
           | H : (_, _) = (_, _) |- _ => injection H as <- <-
           | H : In _ _ |- _ => simpl in H
           end;
    try reflexivity; try discriminate.
Qed.

(** The store refuses the rows of a message that was parsed with confidence
    0.75: the failure record still says 0.0. *)
Lemma failure_metrics_confidence_zero_witness :
  InvoiceExtractedMessage.confidence_score sample_message = 0.75%float ∧
  MetricsArgs.confidence_score
    (failure_metrics_args sample_config (mk_bq "invoice-prod")
       (mk_locals (InvoiceExtractedMessage.source_file sample_message) "INV-UE-123"
                  (Some sample_raw_message) (Some sample_message))
       (RuntimeError "BigQuery write failed: 403 Access Denied: Table invoices"))
  = 0%float.
Proof.
  split; [reflexivity |].
  apply (failure_metrics_confidence_zero write_refused_world sample_event _ (Ok tt)).
  - vm_compute. left. reflexivity.
  - reflexivity.
Defined.

(** ** C2: the metrics calls of one attempt *)

(** C2 as stated fails: when the success record is rejected, the call with
    [success=True] raises inside the [try] body and the [except] clause makes
    a second call, so the attempt has two metrics calls. *)
Lemma one_metrics_call_counterexample :
  List.map (λ c, MetricsArgs.success (fst c))
           (metrics_calls (events metrics_down_world sample_event))
  = [true; false] ∧
  List.length (metrics_calls (events metrics_down_world sample_event)) ≠ 1%nat.
Proof. split; [reflexivity | vm_compute; discriminate]. Qed.

(** C2 (amended). Once the configuration is loaded and the adapter is built,
    the handler returns, and the metrics calls of the attempt are one of:
    on the success path, a single call with [success=True] that returned;
    on a failure before the success record, a single call with
    [success=False] carrying the message of the exception that ended the
    [try] body; when the call with [success=True] itself raised, that call
    followed by a single call with [success=False] carrying the message of
    its exception.  Whether the call with [success=False] returns or raises
    changes nothing: its exception is swallowed. *)
Theorem metrics_calls_of_attempt w ce config bq :
  w_get_config w = Ok config →
  w_bigquery_adapter w (Config.project_id config) = Ok bq →
  outcome w ce = Ok tt ∧
  ((failure_cause (events w ce) = None ∧
    ∃ args, metrics_calls (events w ce) = [(args, Ok tt)] ∧
            MetricsArgs.success args = true) ∨
   (∃ e args r,
      failure_cause (events w ce) = Some e ∧
      metrics_calls (events w ce) = [(args, r)] ∧
      MetricsArgs.success args = false ∧
      MetricsArgs.error_message args = Some (str_of_exception e)) ∨
   (∃ e args1 args2 r,
      failure_cause (events w ce) = Some e ∧
      metrics_calls (events w ce) = [(args1, Raise e); (args2, r)] ∧
      MetricsArgs.success args1 = true ∧
      MetricsArgs.success args2 = false ∧
      MetricsArgs.error_message args2 = Some (str_of_exception e))).
Proof.
  intros Hconfig Hadapter.
  split; [exact (handler_returns_after_setup w ce config bq Hconfig Hadapter) |].
  after_setup Hconfig Hadapter.
  repeat case_call;
    repeat match goal with a : unit |- _ => destruct a end;
    unfold failure_cause; simpl;
    repeat match goal with H : WriteResult.success _ = _ |- _ => rewrite H end;
    first [ left; split; [reflexivity | eexists; split; reflexivity]
          | right; left; do 3 eexists; repeat split; reflexivity
          | right; right; do 4 eexists; repeat split; reflexivity ].
Qed.

Lemma metrics_calls_of_attempt_witness :
  outcome metrics_down_world sample_event = Ok tt ∧
  ∃ e args1 args2 r,
    failure_cause (events metrics_down_world sample_event) = Some e ∧
    metrics_calls (events metrics_down_world sample_event)
    = [(args1, Raise e); (args2, r)] ∧
    MetricsArgs.success args1 = true ∧
    MetricsArgs.success args2 = false ∧
    MetricsArgs.error_message args2 = Some (str_of_exception e).
Proof.
  destruct (metrics_calls_of_attempt metrics_down_world sample_event
              sample_config (mk_bq "invoice-prod") eq_refl eq_refl)
    as [Hout [(Hnone & _) | [(e & args & r & _ & Hcalls & _) | Htwo]]].
  - discriminate Hnone.
  - discriminate Hcalls.
  - split; [exact Hout | exact Htwo].
Defined.

(** ** C5: what the handler does with the write result *)

(** C5 as stated fails: the invoice is a duplicate, the success record is
    rejected, and the attempt ends in the [except] clause with an error
    artifact in the quarantine bucket. *)
Lemma duplicate_counterexample :
  List.map snd (invoice_writes (events duplicate_metrics_down_world sample_event))
  = [Ok duplicate_write] ∧
  WriteResult.is_duplicate duplicate_write = true ∧
  List.length (failure_bucket_calls (events duplicate_metrics_down_world sample_event))
  = 1%nat ∧
  List.map (λ a, snd (fst a)) (artifacts (events duplicate_metrics_down_world sample_event))
  = ["ubereats_INV-UE-123.error.json"].
Proof. repeat split; reflexivity. Qed.

(** C5 (amended). When [write_invoice_to_bigquery] returns a result, the
    handler returns too.  A result with [success=True], duplicate or not, is
    followed by the call with [success=True] of the metrics, and when that
    call returns the attempt is over: no call of the [except] clause, no error
    artifact.  A result with [success=False] sends the attempt to the [except]
    clause with a [RuntimeError] whose message ends with the error of the
    store; the metrics call with [success=False] carries that message and
    [_write_failure_to_bucket] is called once. *)
Theorem write_result_routing w ce config bq raw message invoice result :
  w_get_config w = Ok config →
  w_bigquery_adapter w (Config.project_id config) = Ok bq →
  w_decode w ce = Ok raw →
  w_validate_message w raw = Ok message →
  w_validate_invoice w (InvoiceExtractedMessage.extracted_data message) = Ok invoice →
  w_write_invoice w (invoice_args_of config bq message invoice) = Ok result →
  outcome w ce = Ok tt ∧
  (WriteResult.success result = true →
     List.head (metrics_calls (events w ce))
     = Some (success_metrics_args_of config bq message invoice,
             w_write_metrics w (success_metrics_args_of config bq message invoice)) ∧
     (w_write_metrics w (success_metrics_args_of config bq message invoice) = Ok tt →
        failure_cause (events w ce) = None ∧
        metrics_calls (events w ce)
        = [(success_metrics_args_of config bq message invoice, Ok tt)] ∧
        failure_bucket_calls (events w ce) = [] ∧
        storage_writes (events w ce) = [])) ∧
  (WriteResult.success result = false →
     let text := "BigQuery write failed: " ++ format_optional (WriteResult.error result) in
     failure_cause (events w ce) = Some (RuntimeError text) ∧
     (∃ args r, metrics_calls (events w ce) = [(args, r)] ∧
                MetricsArgs.success args = false ∧
                MetricsArgs.error_message args = Some text) ∧
     failure_bucket_calls (events w ce) = [Config.project_id config]).
Proof.
  intros Hconfig Hadapter Hdecode Hmessage Hinvoice Hwrite.
  split; [exact (handler_returns_after_setup w ce config bq Hconfig Hadapter) |].
  unfold invoice_args_of, success_metrics_args_of in *.
  after_setup Hconfig Hadapter.
  rewrite Hdecode; simpl. rewrite Hmessage; simpl. rewrite Hinvoice; simpl.
  rewrite Hwrite; simpl.
  split; intros Hsuccess; rewrite Hsuccess; simpl.
  - split.
    + repeat case_call; reflexivity.
    + intros Hmetrics. rewrite Hmetrics. simpl.
      unfold failure_cause. simpl. rewrite Hsuccess. repeat split.
  - unfold failure_cause.
    repeat case_call; simpl; rewrite ?Hsuccess;
      (split; [reflexivity | split; [do 2 eexists; repeat split; reflexivity | reflexivity]]).
Qed.

Lemma write_result_routing_witness :
  (WriteResult.is_duplicate duplicate_write = true ∧
   metrics_calls (events duplicate_world sample_event)
   = [(success_metrics_args_of sample_config (mk_bq "invoice-prod")
         sample_message sample_invoice, Ok tt)] ∧
   failure_bucket_calls (events duplicate_world sample_event) = [] ∧
   storage_writes (events duplicate_world sample_event) = []) ∧
  (failure_cause (events write_refused_world sample_event)
   = Some (RuntimeError "BigQuery write failed: 403 Access Denied: Table invoices") ∧
   failure_bucket_calls (events write_refused_world sample_event) = ["invoice-prod"]).
Proof.
  split.
  - destruct (write_result_routing duplicate_world sample_event sample_config
                (mk_bq "invoice-prod") sample_raw_message sample_message sample_invoice
                duplicate_write eq_refl eq_refl eq_refl eq_refl eq_refl eq_refl)
      as (_ & Hsuccess & _).
    destruct (Hsuccess eq_refl) as (_ & Hreturns).
    destruct (Hreturns eq_refl) as (_ & Hcalls & Hbucket & Hwrites).
    repeat split; assumption.
  - destruct (write_result_routing write_refused_world sample_event sample_config
                (mk_bq "invoice-prod") sample_raw_message sample_message sample_invoice
                failed_write eq_refl eq_refl eq_refl eq_refl eq_refl eq_refl)
      as (_ & _ & Hfailure).
    destruct (Hfailure eq_refl) as (Hcause & _ & Hbucket).
    split; assumption.
Defined.

(** ** C6: the order of the stages *)

(** C6 as stated fails: the payload cannot be decoded and the quarantine
    bucket refuses the write, so the attempt leaves no error artifact. *)
Lemma one_artifact_counterexample :
  rejected_before_write undecodable_quarantine_down_world sample_event
    (OtherException "JSONDecodeError" "Expecting value: line 1 column 1 (char 0)") ∧
  invoice_writes (events undecodable_quarantine_down_world sample_event) = [] ∧
  artifacts (events undecodable_quarantine_down_world sample_event) = [].
Proof. split; [left; reflexivity | split; reflexivity]. Qed.

Ltac split_membership :=
  repeat match goal with
         | H : In _ _ |- _ => simpl in H
         | H : _ ∨ _ |- _ => destruct H
         | H : False |- _ => destruct H
         | H : EvWriteMetrics _ _ = EvWriteMetrics _ _ |- _ => injection H as <- <-
         | H : _ = EvWriteMetrics _ _ |- _ => discriminate H
         end.

(** C6 (amended). Once the configuration is loaded and the adapter is built,
    the stages run in the order decoding, validation of the envelope,
    validation of the invoice, invoice write, success metrics: each stage is
    called exactly when every stage before it succeeded, so the attempt stops
    at the first one that fails.  The call with [success=True] of the metrics
    is made only when an invoice write has returned [success=True].  When
    decoding or a validation raises, [write_invoice_to_bigquery] is not called
    and [_write_failure_to_bucket] is called exactly once; that call leaves at
    most one error artifact, and exactly one when the quarantine store takes
    the write. *)
Theorem stages_in_order w ce config bq :
  w_get_config w = Ok config →
  w_bigquery_adapter w (Config.project_id config) = Ok bq →
  stage_events (events w ce) = stages_until_failure w ce config bq ∧
  stages (events w ce)
  = List.seq 1 (List.length (stages_until_failure w ce config bq)) ∧
  (∃ n, stages (events w ce) = List.firstn n [1; 2; 3; 4; 5]%nat) ∧
  (∀ args r,
     In (EvWriteMetrics args r) (events w ce) →
     MetricsArgs.success args = true →
     ∃ invoice_args result,
       In (EvWriteInvoice invoice_args (Ok result)) (events w ce) ∧
       WriteResult.success result = true) ∧
  (∀ e,
     rejected_before_write w ce e →
     invoice_writes (events w ce) = [] ∧
     failure_bucket_calls (events w ce) = [Config.project_id config] ∧
     (List.length (artifacts (events w ce)) ≤ 1)%nat ∧
     (quarantine_works w → List.length (artifacts (events w ce)) = 1%nat)).
Proof.
  intros Hconfig Hadapter. split; [| split; [| split; [| split]]].
  - unfold stages_until_failure, invoice_args_of, success_metrics_args_of, stage_events.
    after_setup Hconfig Hadapter.
    repeat case_call; reflexivity.
  - unfold stages_until_failure, invoice_args_of, success_metrics_args_of.
    after_setup Hconfig Hadapter.
    repeat case_call; reflexivity.
  - after_setup Hconfig Hadapter.
    repeat case_call;
      first [ by exists 0%nat | by exists 1%nat | by exists 2%nat
            | by exists 3%nat | by exists 4%nat | by exists 5%nat ].
  - intros args r. after_setup Hconfig Hadapter.
    repeat case_call; intros Hin Hs; split_membership; try discriminate Hs;
      do 2 eexists; (split; [simpl; eauto 10 | eassumption]).
  - intros e Hrejected.
    assert (Hgcs : quarantine_works w →
                   ∀ project_id, ∃ storage, w_gcs_adapter w project_id = Ok storage).
    { intros [H _] project_id. specialize (H project_id).
      destruct (w_gcs_adapter w project_id); [eauto | discriminate]. }
    assert (Hput : quarantine_works w →
                   ∀ storage bucket path data content_type,
                     ∃ uri, w_storage_write w storage bucket path data content_type
                            = Ok uri).
    { intros [_ H] storage bucket path data content_type.
      specialize (H storage bucket path data content_type).
      destruct (w_storage_write w storage bucket path data content_type);
        [eauto | discriminate]. }
    after_setup Hconfig Hadapter.
    destruct Hrejected as [Hd | [(raw & Hd & Hm) | (raw & message & Hd & Hm & Hi)]];
      rewrite Hd; simpl; rewrite ?Hm; simpl; rewrite ?Hi; simpl.
    all: repeat case_call; repeat split; try reflexivity; try (simpl; lia).
    all: intros Hq;
      repeat match goal with
             | E : w_gcs_adapter _ _ = Raise _ |- _ =>
                 destruct (Hgcs Hq (Config.project_id config)) as [? ?]; congruence
             | E : w_storage_write _ ?a ?b ?c ?d ?f = Raise _ |- _ =>
                 destruct (Hput Hq a b c d f) as [? ?]; congruence
             end.
Qed.

Lemma stages_in_order_witness :
  (stages (events missing_invoice_id_world sample_event) = [1; 2; 3]%nat ∧
   invoice_writes (events missing_invoice_id_world sample_event) = [] ∧
   failure_bucket_calls (events missing_invoice_id_world sample_event)
   = ["invoice-prod"] ∧
   List.length (artifacts (events missing_invoice_id_world sample_event)) = 1%nat) ∧
  stages (events working_world sample_event) = [1; 2; 3; 4; 5]%nat ∧
  stages (events write_refused_world sample_event) = [1; 2; 3; 4]%nat.
Proof.
  destruct (stages_in_order missing_invoice_id_world sample_event sample_config
              (mk_bq "invoice-prod") eq_refl eq_refl)
    as (_ & Hstages & _ & _ & Hrejected).
  destruct (Hrejected missing_invoice_id_error) as (Hwrites & Hcalls & _ & Hone).
  { right. right. exists sample_raw_message, sample_message.
    repeat split; reflexivity. }
  split; [split; [exact Hstages |]; split; [exact Hwrites |]; split; [exact Hcalls |] |].
  - apply Hone. split; intros; reflexivity.
  - split.
    + exact (proj1 (proj2 (stages_in_order working_world sample_event sample_config
                             (mk_bq "invoice-prod") eq_refl eq_refl))).
    + exact (proj1 (proj2 (stages_in_order write_refused_world sample_event sample_config
                             (mk_bq "invoice-prod") eq_refl eq_refl))).
Defined.

(** ** C4: the remediation hints *)

(** The loop adds the hints of the recognised errors, in order, and nothing
    for the others. *)
Lemma fold_add_hint errors hints :
  List.fold_left add_hint errors hints = (hints ++ omap hint_of errors)%list.
Proof.
  revert hints. induction errors as [| err errors IH]; intros hints; simpl.
  - symmetry. apply app_nil_r.
  - rewrite IH. unfold add_hint, hint_of, classify.
    destruct (str.contains "greater_than" (ErrorDetails.type err)
              || str.contains "less_than" (ErrorDetails.type err)); simpl.
    { by rewrite <- app_assoc. }
    destruct (str.contains "missing" (ErrorDetails.type err)); simpl.
    { by rewrite <- app_assoc. }
    destruct (str.contains "string_type" (ErrorDetails.type err)
              || str.contains "type_error" (ErrorDetails.type err)); simpl.
    { by rewrite <- app_assoc. }
    reflexivity.
Qed.

Lemma remediation_hints_unfold error :
  _generate_remediation_hints error
  = match omap hint_of (errors_of error) with
    | [] => [generic_hint]
    | hint :: hints => hint :: hints
    end.
Proof.
  unfold _generate_remediation_hints.
  destruct error as [text errors | text | class_name text]; simpl; try reflexivity.
  rewrite fold_add_hint. simpl.
  destruct (omap hint_of errors); reflexivity.
Qed.

(** C4 as stated fails: two fields are violated, the type of the second
    error is not one the function knows, and a single hint comes out, which
    is not the generic one. *)
Lemma one_hint_per_field_counterexample :
  List.length (errors_of mixed_error) = 2%nat ∧
  _generate_remediation_hints mixed_error = [missing_hint "invoice_id"] ∧
  List.length (_generate_remediation_hints mixed_error) ≠ 2%nat ∧
  _generate_remediation_hints mixed_error ≠ [generic_hint].
Proof. repeat split; vm_compute; discriminate. Qed.

(** C4 (amended). [_generate_remediation_hints] is a total function of the
    error.  For a validation error it emits, in order, one hint for each
    reported error whose type is recognised: a type containing
    [greater_than] or [less_than] gives the credit/discount hint, otherwise a
    type containing [missing] gives the hint to review the extraction prompt,
    otherwise a type containing [string_type] or [type_error] gives the hint
    to check the output format; each hint names the field.  An error of any
    other type adds no hint.  When no hint was emitted, for a validation error
    or for any other exception, the result is the single generic hint. *)
Theorem remediation_hints_by_kind error :
  let recognised := omap hint_of (errors_of error) in
  (recognised ≠ [] → _generate_remediation_hints error = recognised) ∧
  (recognised = [] → _generate_remediation_hints error = [generic_hint]) ∧
  (is_ValidationError error = false →
   _generate_remediation_hints error = [generic_hint]) ∧
  (∀ err kind,
     In err (errors_of error) →
     classify (ErrorDetails.type err) = Some kind →
     In (hint_text kind (field_of err)) (_generate_remediation_hints error)) ∧
  (∀ field,
     hint_text NumericRange field
     = "Field '" ++ field ++ "' has numeric constraint violation. Check if this is a discount/credit that should be handled differently." ∧
     hint_text MissingField field
     = "Required field '" ++ field ++ "' is missing. Review extraction prompt for this field." ∧
     hint_text TypeMismatch field
     = "Field '" ++ field ++ "' has wrong type. Check LLM output format for this field.").
Proof.
  intros recognised. rewrite remediation_hints_unfold. fold recognised.
  split; [| split; [| split; [| split]]].
  - destruct recognised; [congruence | reflexivity].
  - intros ->. reflexivity.
  - unfold recognised. destruct error; simpl; intros H; try discriminate; reflexivity.
  - intros err kind Hin Hkind.
    assert (Hrec : In (hint_text kind (field_of err)) recognised).
    { apply list_elem_of_In, list_elem_of_omap. exists err.
      split; [by apply list_elem_of_In |]. unfold hint_of. by rewrite Hkind. }
    destruct recognised; [destruct Hrec | exact Hrec].
  - intros field. repeat split.
Qed.

Lemma remediation_hints_by_kind_witness :
  _generate_remediation_hints
    (ValidationError "1 validation error for ExtractedInvoice"
       [ErrorDetails.mk [LocStr "total_amount"] "missing" "Field required" None])
  = ["Required field 'total_amount' is missing. Review extraction prompt for this field."] ∧
  _generate_remediation_hints (OtherException "TimeoutError" "deadline exceeded")
  = [generic_hint].
Proof.
  split.
  - apply (proj1 (remediation_hints_by_kind
                    (ValidationError "1 validation error for ExtractedInvoice"
                       [ErrorDetails.mk [LocStr "total_amount"] "missing"
                                        "Field required" None]))).
    vm_compute. discriminate.
  - apply (proj1 (proj2 (proj2 (remediation_hints_by_kind
                                  (OtherException "TimeoutError" "deadline exceeded"))))).
    reflexivity.
Defined.

(** ** C7: the error record *)

(** C7. The record built by [_create_error_record] has exactly the keys
    [error_metadata], [invoice_context], [extracted_data], [raw_message] and
    [remediation_hints]; [error_metadata] has exactly the six documented keys
    and [invoice_context] the five documented ones; [is_validation_error] is
    true exactly when the error is a [ValidationError]; and a validation error
    that reports [invoice_id] as missing gives an entry of type [missing] for
    field [invoice_id] in [validation_details.errors]. *)
Theorem error_record_structure
    source_file invoice_id error raw_message message timestamp :
  let record :=
    _create_error_record source_file invoice_id error raw_message message timestamp in
  keys record = ["error_metadata"; "invoice_context"; "extracted_data";
                 "raw_message"; "remediation_hints"] ∧
  (∃ metadata,
     get "error_metadata" record = Some metadata ∧
     keys metadata = ["timestamp"; "failed_stage"; "error_type"; "error_message";
                      "is_validation_error"; "validation_details"] ∧
     get "failed_stage" metadata = Some (JStr "bigquery-writer") ∧
     get "error_type" metadata = Some (JStr (type_name error)) ∧
     get "error_message" metadata = Some (JStr (str_of_exception error)) ∧
     (∃ b, get "is_validation_error" metadata = Some (JBool b) ∧
           (b = true ↔ ∃ text errors, error = ValidationError text errors)) ∧
     (∀ text errors err,
        error = ValidationError text errors →
        In err errors →
        ErrorDetails.loc err = [LocStr "invoice_id"] →
        ErrorDetails.type err = "missing" →
        ∃ details entries entry,
          get "validation_details" metadata = Some details ∧
          get "errors" details = Some (JList entries) ∧
          In entry entries ∧
          get "field" entry = Some (JStr "invoice_id") ∧
          get "type" entry = Some (JStr "missing"))) ∧
  (∃ context,
     get "invoice_context" record = Some context ∧
     keys context = ["source_file"; "invoice_id"; "vendor_type"; "extraction_model";
                     "confidence_score"] ∧
     get "source_file" context = Some (JStr source_file) ∧
     get "invoice_id" context = Some (JStr invoice_id)) ∧
  get "raw_message" record = Some raw_message ∧
  get "remediation_hints" record
  = Some (JList (List.map JStr (_generate_remediation_hints error))).
Proof.
  unfold _create_error_record.
  destruct message as [message |]; simpl.
  all: split; [reflexivity |].
  all: split; [| split; [eexists; repeat split; reflexivity | split; reflexivity]].
  all: eexists; split; [reflexivity |].
  all: split; [reflexivity |]; split; [reflexivity |]; split; [reflexivity |].
  all: split; [reflexivity |]; split.
  all: try (exists (is_ValidationError error); split; [reflexivity |];
            destruct error; simpl; split; intros H; try discriminate; eauto;
            destruct H as (? & ? & H); discriminate H).
  all: intros text errors err -> Hin Hloc Htype; simpl;
    exists (JDict [("error_count", JInt (Z.of_nat (List.length errors)));
                   ("errors", JList (List.map validation_entry errors))]),
           (List.map validation_entry errors), (validation_entry err);
    (split; [reflexivity |]); (split; [reflexivity |]);
    (split; [by apply in_map |]);
    unfold validation_entry, field_of; rewrite Hloc, Htype; split; reflexivity.
Qed.

(** The invoice of the message has no invoice id: the artifact the handler
    writes lists [invoice_id] as missing. *)
Lemma error_record_structure_witness :
  ∃ record metadata details entries entry,
    List.map (λ a, snd a) (artifacts (events missing_invoice_id_world sample_event))
    = [record] ∧
    get "error_metadata" record = Some metadata ∧
    get "is_validation_error" metadata = Some (JBool true) ∧
    get "validation_details" metadata = Some details ∧
    get "errors" details = Some (JList entries) ∧
    In entry entries ∧
    get "field" entry = Some (JStr "invoice_id") ∧
    get "type" entry = Some (JStr "missing").
Proof.
  destruct (error_record_structure
              (InvoiceExtractedMessage.source_file sample_message) "unknown"
              missing_invoice_id_error sample_raw_message (Some sample_message)
              sample_time)
    as (_ & (metadata & Hmeta & _ & _ & _ & _ & (b & Hb & Hiff) & Hmissing) & _).
  destruct (Hmissing "1 validation error for ExtractedInvoice"
              [ErrorDetails.mk [LocStr "invoice_id"] "missing" "Field required"
                               (Some "{'vendor_type': 'ubereats'}")]
              (ErrorDetails.mk [LocStr "invoice_id"] "missing" "Field required"
                               (Some "{'vendor_type': 'ubereats'}"))
              eq_refl (or_introl eq_refl) eq_refl eq_refl)
    as (details & entries & entry & Hd & He & Hin & Hf & Ht).
  exists (_create_error_record
            (InvoiceExtractedMessage.source_file sample_message) "unknown"
            missing_invoice_id_error sample_raw_message (Some sample_message)
            sample_time), metadata, details, entries, entry.
  split; [reflexivity |]. split; [exact Hmeta |].
  split.
  { rewrite Hb. f_equal. f_equal. apply Hiff. eauto. }
  repeat split; assumption.
Defined.

(** ** C8: the error artifact and its key *)

Lemma known_test s :
  known s → str.truthy s && negb (s =? "unknown")%string = true.
Proof.
  intros [Hne Hunk]. apply andb_true_iff. split.
  - destruct s; [congruence | reflexivity].
  - apply negb_true_iff, String.eqb_neq. exact Hunk.
Qed.

Lemma unknown_test s :
  ¬ known s → str.truthy s && negb (s =? "unknown")%string = false.
Proof.
  intros Hnot. destruct (str.truthy s && negb (s =? "unknown")%string) eqn:E; [| done].
  exfalso. apply Hnot. apply andb_true_iff in E as [Ht Hu]. split.
  - intros ->. discriminate Ht.
  - apply String.eqb_neq, negb_true_iff. exact Hu.
Qed.

(** With a known source file the key is [source_key]: neither the invoice id
    nor the clock takes part. *)
Lemma filename_of_known_source now source_file invoice_id :
  known source_file →
  _generate_error_filename now source_file invoice_id = source_key source_file.
Proof.
  intros Hknown. unfold _generate_error_filename.
  rewrite (known_test _ Hknown). reflexivity.
Qed.

Lemma filename_of_known_invoice now source_file invoice_id :
  ¬ known source_file → known invoice_id →
  _generate_error_filename now source_file invoice_id = invoice_id ++ ".error.json".
Proof.
  intros Hsource Hinvoice. unfold _generate_error_filename.
  rewrite (unknown_test _ Hsource), (known_test _ Hinvoice). reflexivity.
Qed.

Lemma store_after_app tr1 tr2 store :
  store_after (tr1 ++ tr2) store = store_after tr2 (store_after tr1 store).
Proof. unfold store_after. apply fold_left_app. Qed.

(** One attempt on a message whose source file is known changes the
    quarantine store at most by putting one object, under the key of the
    source file. *)
Lemma store_after_attempt w ce config bq raw message store :
  w_get_config w = Ok config →
  w_bigquery_adapter w (Config.project_id config) = Ok bq →
  w_decode w ce = Ok raw →
  w_validate_message w raw = Ok message →
  known (InvoiceExtractedMessage.source_file message) →
  store_after (events w ce) store = store ∨
  ∃ data,
    store_after (events w ce) store
    = <[(Config.failed_bucket config,
         source_key (InvoiceExtractedMessage.source_file message)) := data]> store.
Proof.
  intros Hconfig Hadapter Hdecode Hmessage Hknown.
  after_setup Hconfig Hadapter.
  rewrite Hdecode; simpl. rewrite Hmessage; simpl.
  repeat case_call; unfold store_after; simpl;
    rewrite ?(filename_of_known_source _ _ _ Hknown); eauto.
Qed.

Lemma filename_of_unknown now source_file invoice_id :
  ¬ known source_file → ¬ known invoice_id →
  _generate_error_filename now source_file invoice_id
  = "unknown_" ++ strftime_Ymd_HMS now ++ ".error.json".
Proof.
  intros Hsource Hinvoice. unfold _generate_error_filename.
  rewrite (unknown_test _ Hsource), (unknown_test _ Hinvoice). reflexivity.
Qed.

Lemma placeholder_not_known : ¬ known "unknown".
Proof. intros [_ H]. by apply H. Qed.

(** Every storage write of an attempt goes to the failed bucket, under the
    name [_generate_error_filename] gives for the source file and the invoice
    id the handler holds. *)
Lemma storage_write_key w ce config bq bucket path data r :
  w_get_config w = Ok config →
  w_bigquery_adapter w (Config.project_id config) = Ok bq →
  In (bucket, path, data, r) (storage_writes (events w ce)) →
  bucket = Config.failed_bucket config ∧
  path = _generate_error_filename (w_now w) (held_source_file w ce)
                                  (held_invoice_id w ce).
Proof.
  intros Hconfig Hadapter. unfold held_source_file, held_invoice_id.
  after_setup Hconfig Hadapter.
  repeat case_call; intros Hin; simpl in Hin;
    try (destruct Hin; fail); destruct Hin as [Hin | []];
    injection Hin as <- <- <- <-; split; reflexivity.
Qed.

(** One attempt that holds a known source file changes the quarantine store
    at most by putting one object, under the key of that source file. *)
Lemma store_after_held w ce config bq store :
  w_get_config w = Ok config →
  w_bigquery_adapter w (Config.project_id config) = Ok bq →
  known (held_source_file w ce) →
  store_after (events w ce) store = store ∨
  ∃ data,
    store_after (events w ce) store
    = <[(Config.failed_bucket config, source_key (held_source_file w ce)) := data]>
        store.
Proof.
  intros Hconfig Hadapter Hknown. unfold held_source_file in *.
  destruct (w_decode w ce) as [raw |] eqn:Hdecode;
    [| by apply placeholder_not_known in Hknown].
  destruct (w_validate_message w raw) as [message |] eqn:Hmessage;
    [| by apply placeholder_not_known in Hknown].
  by apply (store_after_attempt w ce config bq raw message).
Qed.

(** C8 as stated fails: two payloads that cannot be decoded, one second
    apart.  Neither attempt has a source file or an invoice id, so what is
    available is the same for both, yet the two artifacts get different keys
    and both stay in the bucket. *)
Lemma clock_named_counterexample :
  held_source_file (undecodable_world_at sample_time) sample_event
  = held_source_file (undecodable_world_at a_second_later) sample_event ∧
  held_invoice_id (undecodable_world_at sample_time) sample_event
  = held_invoice_id (undecodable_world_at a_second_later) sample_event ∧
  List.map (λ a, snd (fst a))
           (artifacts (events (undecodable_world_at sample_time) sample_event))
  = ["unknown_20250309_140730.error.json"] ∧
  List.map (λ a, snd (fst a))
           (artifacts (events (undecodable_world_at a_second_later) sample_event))
  = ["unknown_20250309_140731.error.json"] ∧
  is_Some (store_after
             (events (undecodable_world_at sample_time) sample_event
              ++ events (undecodable_world_at a_second_later) sample_event) ∅
           !! ("invoice-failed", "unknown_20250309_140730.error.json")) ∧
  is_Some (store_after
             (events (undecodable_world_at sample_time) sample_event
              ++ events (undecodable_world_at a_second_later) sample_event) ∅
           !! ("invoice-failed", "unknown_20250309_140731.error.json")).
Proof.
  split; [reflexivity |]. split; [reflexivity |].
  split; [vm_compute; reflexivity |]. split; [vm_compute; reflexivity |].
  assert (Hstore :
    ∃ data1 data2,
      store_after
        (events (undecodable_world_at sample_time) sample_event
         ++ events (undecodable_world_at a_second_later) sample_event) ∅
      = <[("invoice-failed", "unknown_20250309_140731.error.json") := data2]>
          (<[("invoice-failed", "unknown_20250309_140730.error.json") := data1]> ∅)).
  { do 2 eexists. reflexivity. }
  destruct Hstore as (data1 & data2 & ->). split.
  - rewrite lookup_insert_ne by discriminate. rewrite lookup_insert_eq. eauto.
  - rewrite lookup_insert_eq. eauto.
Qed.

(** C8 (amended). An attempt calls [_write_failure_to_bucket] at most once,
    exactly once when it failed and never when it did not, and that call
    writes at most one object.  The object goes to the failed bucket under
    the name [_generate_error_filename] gives for the source file and the
    invoice id the handler holds: the key of the source file when the
    envelope was validated with a known source file, whatever the invoice id
    and the clock; otherwise the invoice id followed by [.error.json] when the
    invoice was validated with a known id, whatever the clock; and otherwise,
    as after every failure of decoding or of the validation of the envelope,
    [unknown_<YYYYmmdd_HHMMSS>.error.json] from the clock.  So two failed
    attempts that hold the same known source file leave at most one object
    under that key, the later write replacing the earlier one. *)
Theorem one_artifact_per_source_file :
  (∀ w ce,
     (List.length (failure_bucket_calls (events w ce)) ≤ 1)%nat ∧
     (List.length (storage_writes (events w ce)) ≤ 1)%nat ∧
     (List.length (artifacts (events w ce)) ≤ 1)%nat) ∧
  (∀ w ce config bq,
     w_get_config w = Ok config →
     w_bigquery_adapter w (Config.project_id config) = Ok bq →
     List.length (failure_bucket_calls (events w ce))
     = match failure_cause (events w ce) with Some _ => 1%nat | None => 0%nat end) ∧
  (∀ w ce config bq bucket path data r,
     w_get_config w = Ok config →
     w_bigquery_adapter w (Config.project_id config) = Ok bq →
     In (bucket, path, data, r) (storage_writes (events w ce)) →
     bucket = Config.failed_bucket config ∧
     path = _generate_error_filename (w_now w) (held_source_file w ce)
                                     (held_invoice_id w ce) ∧
     (known (held_source_file w ce) → path = source_key (held_source_file w ce)) ∧
     (¬ known (held_source_file w ce) → known (held_invoice_id w ce) →
      path = held_invoice_id w ce ++ ".error.json") ∧
     (¬ known (held_source_file w ce) → ¬ known (held_invoice_id w ce) →
      path = "unknown_" ++ strftime_Ymd_HMS (w_now w) ++ ".error.json") ∧
     (∀ e, (w_decode w ce = Raise e ∨
            ∃ raw, w_decode w ce = Ok raw ∧ w_validate_message w raw = Raise e) →
           path = "unknown_" ++ strftime_Ymd_HMS (w_now w) ++ ".error.json")) ∧
  (∀ now now' source_file invoice_id invoice_id',
     known source_file →
     _generate_error_filename now source_file invoice_id
     = _generate_error_filename now' source_file invoice_id') ∧
  (∀ now now' source_file invoice_id,
     ¬ known source_file → known invoice_id →
     _generate_error_filename now source_file invoice_id
     = _generate_error_filename now' source_file invoice_id) ∧
  (∀ w1 ce1 bq1 w2 ce2 bq2 config store,
     w_get_config w1 = Ok config →
     w_bigquery_adapter w1 (Config.project_id config) = Ok bq1 →
     w_get_config w2 = Ok config →
     w_bigquery_adapter w2 (Config.project_id config) = Ok bq2 →
     known (held_source_file w1 ce1) →
     held_source_file w2 ce2 = held_source_file w1 ce1 →
     store_after (events w1 ce1 ++ events w2 ce2) store = store ∨
     ∃ data,
       store_after (events w1 ce1 ++ events w2 ce2) store
       = <[(Config.failed_bucket config, source_key (held_source_file w1 ce1)) := data]>
           store).
Proof.
  split; [| split; [| split; [| split; [| split]]]].
  - intros w ce. unfold_handler. repeat case_call; simpl; lia.
  - intros w ce config bq Hconfig Hadapter. after_setup Hconfig Hadapter.
    unfold failure_cause.
    repeat case_call; simpl;
      repeat match goal with H : WriteResult.success _ = _ |- _ => rewrite H end;
      reflexivity.
  - intros w ce config bq bucket path data r Hconfig Hadapter Hin.
    destruct (storage_write_key w ce config bq bucket path data r Hconfig Hadapter Hin)
      as [Hbucket Hpath].
    split; [exact Hbucket |]. split; [exact Hpath |].
    split; [| split; [| split]].
    + intros Hknown. rewrite Hpath. by apply filename_of_known_source.
    + intros Hsource Hinvoice. rewrite Hpath. by apply filename_of_known_invoice.
    + intros Hsource Hinvoice. rewrite Hpath. by apply filename_of_unknown.
    + intros e Hfail. rewrite Hpath. unfold held_source_file, held_invoice_id.
      destruct Hfail as [Hd | (raw & Hd & Hm)]; rewrite Hd, ?Hm;
        apply filename_of_unknown; apply placeholder_not_known.
  - intros now now' source_file invoice_id invoice_id' Hknown.
    by rewrite !filename_of_known_source.
  - intros now now' source_file invoice_id Hsource Hinvoice.
    by rewrite !filename_of_known_invoice.
  - intros w1 ce1 bq1 w2 ce2 bq2 config store Hc1 Hb1 Hc2 Hb2 Hknown Hsame.
    rewrite store_after_app.
    assert (Hknown2 : known (held_source_file w2 ce2))
      by (rewrite Hsame; exact Hknown).
    destruct (store_after_held w2 ce2 config bq2
                (store_after (events w1 ce1) store) Hc2 Hb2 Hknown2)
      as [-> | [data2 ->]];
      destruct (store_after_held w1 ce1 config bq1 store Hc1 Hb1 Hknown)
        as [-> | [data1 ->]].
    + by left.
    + right. by exists data1.
    + right. exists data2. by rewrite Hsame.
    + right. exists data2. rewrite Hsame. apply insert_insert_eq.
Qed.

Lemma one_artifact_per_source_file_witness :
  (let tr := (events missing_invoice_id_world sample_event
              ++ events write_refused_world sample_event)%list in
   store_after tr ∅ = ∅ ∨
   ∃ data,
     store_after tr ∅
     = <[("invoice-failed",
          source_key "gs://bucket/landing/ubereats_INV-UE-123_page2.tiff") := data]> ∅) ∧
  List.Forall (λ a, snd (fst (fst a)) = "ubereats_INV-UE-123.error.json")
              (storage_writes (events write_refused_world sample_event)) ∧
  List.Forall (λ a, snd (fst (fst a)) = "INV-GH-456.error.json")
              (storage_writes (events unnamed_refused_world sample_event)) ∧
  List.Forall (λ a, snd (fst (fst a)) = "unknown_20250309_140730.error.json")
              (storage_writes (events (undecodable_world_at sample_time) sample_event)).
Proof.
  destruct one_artifact_per_source_file as (_ & _ & Hkey & _ & _ & Hstore).
  split; [| split; [| split]].
  - apply (Hstore missing_invoice_id_world sample_event (mk_bq "invoice-prod")
             write_refused_world sample_event (mk_bq "invoice-prod") sample_config ∅);
      try reflexivity.
    split; discriminate.
  - apply List.Forall_forall. intros [[[bucket path] data] r] Hin.
    destruct (Hkey write_refused_world sample_event sample_config (mk_bq "invoice-prod")
                bucket path data r eq_refl eq_refl Hin) as (_ & _ & Hsource & _).
    simpl. rewrite Hsource; [reflexivity | split; discriminate].
  - apply List.Forall_forall. intros [[[bucket path] data] r] Hin.
    destruct (Hkey unnamed_refused_world sample_event sample_config (mk_bq "invoice-prod")
                bucket path data r eq_refl eq_refl Hin) as (_ & _ & _ & Hinvoice & _).
    simpl. rewrite Hinvoice; [reflexivity | apply placeholder_not_known |].
    split; discriminate.
  - apply List.Forall_forall. intros [[[bucket path] data] r] Hin.
    destruct (Hkey (undecodable_world_at sample_time) sample_event sample_config
                (mk_bq "invoice-prod") bucket path data r eq_refl eq_refl Hin)
      as (_ & _ & _ & _ & _ & Hclock).
    simpl. rewrite (Hclock (OtherException "JSONDecodeError"
                              "Expecting value: line 1 column 1 (char 0)"));
      [reflexivity | left; reflexivity].
Defined.

(** ** C3: the name of the error file *)

Arguments re.at_end : simpl never.
#[local] Arguments String.append : simpl nomatch.

Lemma at_end_no_line_feed c s :
  no_line_feed (String c s) = true → re.at_end (String c s) = false.
Proof.
  simpl. intros H. apply andb_true_iff in H as [Hc _].
  unfold re.at_end. destruct s; [by apply negb_true_iff | reflexivity].
Qed.

(** Without a final line feed, [\d*$] matches exactly the strings of digits,
    whole. *)
Lemma digits_then_end_no_line_feed s :
  no_line_feed s = true →
  re.digits_then_end s = if all_digits s then Some (String.length s) else None.
Proof.
  induction s as [| c s IH]; intros Hlf; [reflexivity |].
  pose proof (at_end_no_line_feed c s Hlf) as Hend.
  simpl in Hlf. apply andb_true_iff in Hlf as [_ Hs].
  simpl. rewrite Hend, (IH Hs).
  destruct (re.is_digit c), (all_digits s); reflexivity.
Qed.

Lemma prefix_drop p s :
  String.prefix p s = true → s = p ++ str.drop (String.length p) s.
Proof.
  revert s. induction p as [| a p IH]; intros s H; [reflexivity |].
  destruct s as [| b s]; [discriminate |]. simpl in H.
  destruct (ascii_dec a b) as [-> |]; [| discriminate].
  simpl. f_equal. by apply IH.
Qed.

Lemma prefix_append p r : String.prefix p (p ++ r) = true.
Proof.
  induction p as [| a p IH]; simpl; [by destruct r |].
  destruct (ascii_dec a a); [exact IH | congruence].
Qed.

Lemma drop_append p r : str.drop (String.length p) (p ++ r) = r.
Proof. induction p; simpl; [by destruct r | assumption]. Qed.

Lemma no_line_feed_append a b :
  no_line_feed (a ++ b) = no_line_feed a && no_line_feed b.
Proof. induction a; simpl; [reflexivity | by rewrite IHa, andb_assoc]. Qed.

Lemma all_digits_append a b : all_digits (a ++ b) = all_digits a && all_digits b.
Proof. induction a; simpl; [reflexivity | by rewrite IHa, andb_assoc]. Qed.

(** Without a final line feed, the pattern matches at the start of [s] exactly
    when [s] is a page-number suffix, and then it matches all of [s]. *)
Lemma match_page_suffix_complete t :
  page_suffix t → no_line_feed t = true →
  re.match_page_suffix t = Some (String.length t).
Proof.
  intros (ds & -> & Hne & Hdigits) Hlf.
  unfold re.match_page_suffix. rewrite prefix_append.
  change 5%nat with (String.length "_page"). rewrite drop_append.
  destruct ds as [| c ds]; [congruence |].
  simpl in Hdigits. apply andb_true_iff in Hdigits as [Hc Hds]. rewrite Hc.
  rewrite no_line_feed_append in Hlf. apply andb_true_iff in Hlf as [_ Hlf].
  simpl in Hlf. apply andb_true_iff in Hlf as [_ Hlf].
  rewrite (digits_then_end_no_line_feed ds Hlf), Hds. reflexivity.
Qed.

Lemma match_page_suffix_sound s n :
  no_line_feed s = true → re.match_page_suffix s = Some n → page_suffix s.
Proof.
  intros Hlf. unfold re.match_page_suffix.
  destruct (String.prefix "_page" s) eqn:Hprefix; [| discriminate].
  apply prefix_drop in Hprefix. change (String.length "_page") with 5%nat in Hprefix.
  destruct (str.drop 5 s) as [| c ds] eqn:Hdrop; [discriminate |].
  destruct (re.is_digit c) eqn:Hc; [| discriminate].
  rewrite Hprefix, no_line_feed_append in Hlf. apply andb_true_iff in Hlf as [_ Hlf].
  simpl in Hlf. apply andb_true_iff in Hlf as [_ Hlf].
  rewrite (digits_then_end_no_line_feed ds Hlf).
  destruct (all_digits ds) eqn:Hds; [| discriminate].
  intros _. exists (String c ds). split; [exact Hprefix |]. split; [discriminate |].
  simpl. by rewrite Hc, Hds.
Qed.

Lemma underscore_not_digits a b : all_digits (a ++ String "_" b) = false.
Proof.
  rewrite all_digits_append. simpl. apply andb_false_r.
Qed.

(** A page-number suffix has no page-number suffix further right: what follows
    [_page] is digits only. *)
Lemma page_suffix_innermost c p t :
  page_suffix (String c (p ++ t)) → page_suffix t → False.
Proof.
  intros (ds' & Heq & _ & Hdigits') (ds & -> & _ & _).
  simpl in Heq. injection Heq as -> Heq.
  destruct p as [| c1 p]; [discriminate |]. simpl in Heq. injection Heq as -> Heq.
  destruct p as [| c2 p]; [discriminate |]. simpl in Heq. injection Heq as -> Heq.
  destruct p as [| c3 p]; [discriminate |]. simpl in Heq. injection Heq as -> Heq.
  destruct p as [| c4 p]; [discriminate |]. simpl in Heq. injection Heq as -> Heq.
  subst ds'. change ("_page" ++ ds) with (String "_" ("page" ++ ds)) in Hdigits'.
  rewrite underscore_not_digits in Hdigits'. discriminate.
Qed.

(** The characters of a match are dropped. *)
Lemma sub_skips s : re.sub_page_suffix_from (String.length s) s = "".
Proof. induction s; simpl; [reflexivity | assumption]. Qed.

(** A trailing page-number suffix is removed, and with it nothing else. *)
Lemma sub_strips_page_suffix p t :
  page_suffix t → no_line_feed (p ++ t) = true →
  re.sub_page_suffix (p ++ t) = p.
Proof.
  intros Ht. unfold re.sub_page_suffix.
  induction p as [| c p IH]; intros Hlf.
  - simpl in *. pose proof (match_page_suffix_complete t Ht Hlf) as Hmatch.
    destruct t as [| c t]; [destruct Ht as (? & ? & _); discriminate |].
    simpl. simpl in Hmatch. rewrite Hmatch. apply sub_skips.
  - assert (Hlf' : no_line_feed (p ++ t) = true).
    { simpl in Hlf. by apply andb_true_iff in Hlf as [_ ?]. }
    change (String c p ++ t) with (String c (p ++ t)) in *.
    cbn [re.sub_page_suffix_from].
    destruct (re.match_page_suffix (String c (p ++ t))) as [[| k] |] eqn:Hmatch.
    + by rewrite (IH Hlf').
    + exfalso. eapply page_suffix_innermost; [| exact Ht].
      eapply match_page_suffix_sound; [exact Hlf | exact Hmatch].
    + by rewrite (IH Hlf').
Qed.

(** A stem without a trailing page-number suffix is left as it is. *)
Lemma sub_keeps_other_stems s :
  no_line_feed s = true →
  (∀ p t, s = p ++ t → ¬ page_suffix t) →
  re.sub_page_suffix s = s.
Proof.
  unfold re.sub_page_suffix.
  induction s as [| c s IH]; intros Hlf Hnone; [reflexivity |].
  cbn [re.sub_page_suffix_from].
  assert (Hrest : re.sub_page_suffix_from 0 s = s).
  { apply IH.
    - simpl in Hlf. by apply andb_true_iff in Hlf as [_ ?].
    - intros p t -> Ht. by apply (Hnone (String c p) t). }
  destruct (re.match_page_suffix (String c s)) as [[| k] |] eqn:Hmatch.
  - by rewrite Hrest.
  - exfalso. apply (Hnone "" (String c s)); [reflexivity |].
    eapply match_page_suffix_sound; [exact Hlf | exact Hmatch].
  - by rewrite Hrest.
Qed.

(** The stem of a path without line feed has no line feed. *)
Lemma no_line_feed_split sep s :
  no_line_feed s = true → List.Forall (λ w, no_line_feed w = true) (str.split sep s).
Proof.
  induction s as [| c s IH]; intros Hlf; simpl.
  - by repeat constructor.
  - simpl in Hlf. apply andb_true_iff in Hlf as [Hc Hs]. specialize (IH Hs).
    destruct (Ascii.eqb c sep).
    + by constructor.
    + destruct (str.split sep s) as [| w ws].
      * repeat constructor. simpl. by rewrite Hc.
      * inversion IH; subst. constructor; [| assumption]. simpl. by rewrite Hc.
Qed.

Lemma no_line_feed_last (f : string → bool) l :
  List.Forall (λ w, no_line_feed w = true) l →
  no_line_feed (List.last (List.filter f l) "") = true.
Proof.
  intros Hl.
  assert (Hf : List.Forall (λ w, no_line_feed w = true) (List.filter f l)).
  { apply List.Forall_forall. intros w Hw. apply List.filter_In in Hw as [Hw _].
    by apply (proj1 (List.Forall_forall _ _) Hl). }
  induction Hf as [| w ws Hw Hws IH]; [reflexivity |].
  destruct ws; [exact Hw | exact IH].
Qed.

Lemma no_line_feed_substring n s :
  no_line_feed s = true → no_line_feed (String.substring 0 n s) = true.
Proof.
  revert n. induction s as [| c s IH]; intros n Hlf; destruct n; try reflexivity.
  simpl in *. apply andb_true_iff in Hlf as [Hc Hs]. by rewrite Hc, IH.
Qed.

Lemma no_line_feed_stem p :
  no_line_feed p = true → no_line_feed (pathlib.stem p) = true.
Proof.
  intros Hlf. unfold pathlib.stem, pathlib.name, pathlib.tail, str.take.
  pose proof (no_line_feed_last
                (λ x, negb (x =? "")%string && negb (x =? ".")%string)
                _ (no_line_feed_split "/" p Hlf)) as Hname.
  match goal with |- context [if ?b then _ else _] => destruct b end.
  - by apply no_line_feed_substring.
  - exact Hname.
Qed.

(** The clock with another count of microseconds. *)
Lemma strftime_ignores_microseconds y mo d h mi sec us us' :
  strftime_Ymd_HMS (mk_datetime y mo d h mi sec us)
  = strftime_Ymd_HMS (mk_datetime y mo d h mi sec us').
Proof. reflexivity. Qed.

(** [$] also matches just before a line feed that ends the string, so a
    page-number suffix followed by one final line feed is removed too.  A URI
    has no line feed, and the statements on source files below leave that
    case out. *)
Remark sub_before_final_line_feed :
  re.sub_page_suffix ("scan_page12" ++ String "010" "") = "scan" ++ String "010" "".
Proof. reflexivity. Qed.

(** C3. [_generate_error_filename] derives the name by priority.  With a
    known source file (a URI, so without line feed) the name is the stem of
    the file name, without a trailing [_page<digits>] when it has one and as
    it is otherwise, followed by [.error.json].  Otherwise, with a known
    invoice id, it is the invoice id followed by [.error.json].  Otherwise it
    is [unknown_], the clock as [YYYYmmdd_HHMMSS] and [.error.json]; the
    microseconds of the clock take no part. *)
Theorem error_filename_by_priority now source_file invoice_id :
  (known source_file → no_line_feed source_file = true →
     (∀ p t,
        pathlib.stem source_file = p ++ t → page_suffix t →
        _generate_error_filename now source_file invoice_id = p ++ ".error.json") ∧
     ((∀ p t, pathlib.stem source_file = p ++ t → ¬ page_suffix t) →
      _generate_error_filename now source_file invoice_id
      = pathlib.stem source_file ++ ".error.json")) ∧
  (¬ known source_file → known invoice_id →
     _generate_error_filename now source_file invoice_id = invoice_id ++ ".error.json") ∧
  (¬ known source_file → ¬ known invoice_id →
     _generate_error_filename now source_file invoice_id
     = "unknown_" ++ strftime_Ymd_HMS now ++ ".error.json" ∧
     ∀ us,
       _generate_error_filename
         (mk_datetime (year now) (month now) (day now) (hour now) (minute now)
                      (second now) us)
         source_file invoice_id
       = _generate_error_filename now source_file invoice_id).
Proof.
  split; [| split].
  - intros Hknown Hlf.
    rewrite (filename_of_known_source now source_file invoice_id Hknown).
    unfold source_key.
    pose proof (no_line_feed_stem source_file Hlf) as Hstem.
    split.
    + intros p t Heq Ht. rewrite Heq in Hstem |- *.
      by rewrite (sub_strips_page_suffix p t Ht Hstem).
    + intros Hnone. by rewrite (sub_keeps_other_stems _ Hstem Hnone).
  - apply filename_of_known_invoice.
  - intros Hsource Hinvoice. unfold _generate_error_filename.
    rewrite (unknown_test _ Hsource), (unknown_test _ Hinvoice).
    split; [reflexivity |]. intros us. destruct now; reflexivity.
Qed.

Lemma error_filename_by_priority_witness :
  pathlib.stem "gs://bucket/landing/ubereats_INV-UE-123_page2.tiff"
  = "ubereats_INV-UE-123" ++ "_page2" ∧
  _generate_error_filename sample_time
    "gs://bucket/landing/ubereats_INV-UE-123_page2.tiff" "unknown"
  = "ubereats_INV-UE-123.error.json" ∧
  _generate_error_filename sample_time "unknown" "INV-GH-456"
  = "INV-GH-456.error.json" ∧
  _generate_error_filename sample_time "unknown" "unknown"
  = "unknown_20250309_140730.error.json".
Proof.
  split; [reflexivity |]. split; [| split].
  - apply (proj1 (proj1 (error_filename_by_priority sample_time
                           "gs://bucket/landing/ubereats_INV-UE-123_page2.tiff"
                           "unknown")
                    ltac:(split; discriminate) eq_refl)
             "ubereats_INV-UE-123" "_page2" eq_refl).
    exists "2". repeat split. discriminate.
  - apply (proj1 (proj2 (error_filename_by_priority sample_time "unknown" "INV-GH-456"))).
    + intros [_ H]. by apply H.
    + split; discriminate.
  - apply (proj1 (proj2 (proj2 (error_filename_by_priority sample_time
                                  "unknown" "unknown"))
                    ltac:(intros [_ H]; by apply H)
                    ltac:(intros [_ H]; by apply H))).
Defined.

(** * Further properties of the handler *)

Arguments _create_error_record : simpl never.
Arguments _generate_error_filename : simpl never.

Ltac split_calls :=
  repeat match goal with
         | H : In _ _ |- _ => simpl in H
         | H : _ ∨ _ |- _ => destruct H
         | H : False |- _ => destruct H
         | H : (_, _) = (_, _) |- _ => injection H as <-
         | H : ?x = _ |- _ => is_var x; subst x
         | H : _ = ?x |- _ => is_var x; subst x
         end.

(** X1. When decoding or the validation of the envelope raises, the metrics
    call of the [except] clause is the only one, and it carries placeholders:
    invoice id and source file ["unknown"], vendor ["other"], model
    ["unknown"], latency 0, with the message of the exception. *)
Theorem unparsed_message_metrics w ce config bq e :
  w_get_config w = Ok config →
  w_bigquery_adapter w (Config.project_id config) = Ok bq →
  (w_decode w ce = Raise e ∨
   ∃ raw, w_decode w ce = Ok raw ∧ w_validate_message w raw = Raise e) →
  metrics_calls (events w ce)
  = [(placeholder_metrics_args config bq e,
      w_write_metrics w (placeholder_metrics_args config bq e))].
Proof.
  intros Hconfig Hadapter Hfail. after_setup Hconfig Hadapter.
  destruct Hfail as [Hd | (raw & Hd & Hm)]; rewrite Hd; simpl; rewrite ?Hm; simpl.
  all: unfold placeholder_metrics_args, failure_metrics_args; simpl.
  all: repeat case_call; reflexivity.
Qed.

Lemma unparsed_message_metrics_witness :
  List.map (λ c, (MetricsArgs.vendor_type (fst c), MetricsArgs.source_file (fst c)))
           (metrics_calls (events undecodable_quarantine_down_world sample_event))
  = [(VendorName "other", "unknown")].
Proof.
  rewrite (unparsed_message_metrics undecodable_quarantine_down_world sample_event
             sample_config (mk_bq "invoice-prod")
             (OtherException "JSONDecodeError"
                             "Expecting value: line 1 column 1 (char 0)")
             eq_refl eq_refl (or_introl eq_refl)).
  reflexivity.
Defined.

(** X2. Once the envelope is validated, every metrics call of the [except]
    clause carries the vendor, the source file, the model and the latency of
    the message.  Its invoice id is ["unknown"] when the validation of the
    invoice raised, and the id of the invoice when it did not. *)
Theorem parsed_message_metrics w ce config bq raw message args r :
  w_get_config w = Ok config →
  w_bigquery_adapter w (Config.project_id config) = Ok bq →
  w_decode w ce = Ok raw →
  w_validate_message w raw = Ok message →
  In (args, r) (metrics_calls (events w ce)) →
  MetricsArgs.success args = false →
  MetricsArgs.vendor_type args
  = VendorMember (InvoiceExtractedMessage.vendor_type message) ∧
  MetricsArgs.source_file args = InvoiceExtractedMessage.source_file message ∧
  MetricsArgs.extraction_model args
  = InvoiceExtractedMessage.extraction_model message ∧
  MetricsArgs.extraction_latency_ms args
  = InvoiceExtractedMessage.extraction_latency_ms message ∧
  MetricsArgs.invoice_id args
  = match w_validate_invoice w (InvoiceExtractedMessage.extracted_data message) with
    | Ok invoice => ExtractedInvoice.invoice_id invoice
    | Raise _ => "unknown"
    end.
Proof.
  intros Hconfig Hadapter Hdecode Hmessage. after_setup Hconfig Hadapter.
  rewrite Hdecode; simpl. rewrite Hmessage; simpl.
  repeat case_call; intros Hin Hs; split_calls; try discriminate Hs;
    repeat split; reflexivity.
Qed.

Lemma parsed_message_metrics_witness :
  ∃ args r,
    metrics_calls (events missing_invoice_id_world sample_event) = [(args, r)] ∧
    MetricsArgs.vendor_type args = VendorMember (VendorType.mk "ubereats") ∧
    MetricsArgs.source_file args
    = "gs://bucket/landing/ubereats_INV-UE-123_page2.tiff" ∧
    MetricsArgs.invoice_id args = "unknown".
Proof.
  eexists _, (Ok tt). split; [reflexivity |].
  destruct (parsed_message_metrics missing_invoice_id_world sample_event
              sample_config (mk_bq "invoice-prod") sample_raw_message sample_message
              _ (Ok tt) eq_refl eq_refl eq_refl eq_refl (or_introl eq_refl) eq_refl)
    as (Hvendor & Hsource & _ & _ & Hid).
  repeat split; assumption.
Defined.

(** X3. The calls of an attempt are made in the order of the text, each at
    most once: configuration, BigQuery adapter, decoding, validation of the
    envelope, validation of the invoice, invoice write, success metrics,
    failure metrics, storage adapter, storage write.  Nothing is retried, and
    an attempt makes at most ten calls. *)
Theorem calls_in_program_order w ce :
  StronglySorted lt (List.map step_of (events w ce)) ∧
  (List.length (events w ce) ≤ 10)%nat.
Proof.
  unfold_handler.
  repeat case_call; simpl; (split; [repeat constructor; lia | lia]).
Qed.

(** X4. The handler reads [success] and [error] of the write result only:
    whether the result says duplicate and how many rows it counts changes
    neither how the handler ends, nor the metrics calls, nor the storage
    writes. *)
Theorem duplicate_flag_ignored w ce f :
  (∀ args, same_verdict (w_write_invoice w args) (f args)) →
  observed (with_write_invoice f w) ce = observed w ce.
Proof.
  intros Hsame. unfold observed. unfold_handler.
  destruct (w_get_config w) as [config |]; simpl; [| reflexivity].
  destruct (w_bigquery_adapter w (Config.project_id config)) as [bq |]; simpl;
    [| reflexivity].
  destruct (w_decode w ce) as [raw |]; simpl; [| reflexivity].
  destruct (w_validate_message w raw) as [message |]; simpl; [| reflexivity].
  destruct (w_validate_invoice w (InvoiceExtractedMessage.extracted_data message))
    as [invoice |]; simpl; [| reflexivity].
  match goal with
  | |- context [w_write_invoice _ ?a] =>
      pose proof (Hsame a) as H; unfold same_verdict in H;
      destruct (w_write_invoice w a) as [r1 | e1], (f a) as [r2 | e2]
  end; try (destruct H; fail); simpl.
  - destruct H as [Hs He]. rewrite <- Hs, <- He.
    destruct (WriteResult.success r1); simpl; repeat case_call; reflexivity.
  - subst e2. repeat case_call; reflexivity.
Qed.

Lemma duplicate_flag_ignored_witness :
  observed duplicate_world sample_event = observed working_world sample_event.
Proof.
  apply (duplicate_flag_ignored working_world sample_event (λ _, Ok duplicate_write)).
  intros args. split; reflexivity.
Defined.

(** What every error record says about its error and its context. *)
Lemma error_record_fields source_file invoice_id error raw_message message timestamp :
  ∃ metadata context,
    get "error_metadata"
        (_create_error_record source_file invoice_id error raw_message message timestamp)
    = Some metadata ∧
    get "invoice_context"
        (_create_error_record source_file invoice_id error raw_message message timestamp)
    = Some context ∧
    get "error_type" metadata = Some (JStr (type_name error)) ∧
    get "error_message" metadata = Some (JStr (str_of_exception error)) ∧
    get "is_validation_error" metadata = Some (JBool (is_ValidationError error)) ∧
    get "source_file" context = Some (JStr source_file) ∧
    get "invoice_id" context = Some (JStr invoice_id).
Proof.
  unfold _create_error_record.
  destruct message; do 2 eexists; repeat split; reflexivity.
Qed.

(** X5. When decoding or the validation of the envelope raises, the error
    artifact is named by the clock, [unknown_<YYYYmmdd_HHMMSS>.error.json],
    whatever the payload says about its source file.  Its record has no
    extracted data, the placeholders ["unknown"] as context, and as raw
    message the decoded payload, or an empty dict when decoding failed. *)
Theorem unparsed_message_artifact w ce config bq e bucket path data r :
  w_get_config w = Ok config →
  w_bigquery_adapter w (Config.project_id config) = Ok bq →
  (w_decode w ce = Raise e ∨
   ∃ raw, w_decode w ce = Ok raw ∧ w_validate_message w raw = Raise e) →
  In (bucket, path, data, r) (storage_writes (events w ce)) →
  path = "unknown_" ++ strftime_Ymd_HMS (w_now w) ++ ".error.json" ∧
  data = _create_error_record "unknown" "unknown" e
           (match w_decode w ce with Ok raw => raw | Raise _ => JDict [] end)
           None (w_now_utc w) ∧
  get "extracted_data" data = Some (JDict []) ∧
  get "raw_message" data
  = Some (match w_decode w ce with Ok raw => raw | Raise _ => JDict [] end).
Proof.
  intros Hconfig Hadapter Hfail. after_setup Hconfig Hadapter.
  destruct Hfail as [Hd | (raw & Hd & Hm)]; rewrite Hd; simpl; rewrite ?Hm; simpl.
  all: repeat case_call; intros Hin; split_calls; repeat split; reflexivity.
Qed.

Lemma unparsed_message_artifact_witness :
  List.map (λ a, snd (fst (fst a)))
    (storage_writes (events undecodable_quarantine_down_world sample_event))
  = ["unknown_20250309_140730.error.json"].
Proof.
  destruct (storage_writes (events undecodable_quarantine_down_world sample_event))
    as [| [[[bucket path] data] r] rest] eqn:Hwrites; [discriminate Hwrites |].
  destruct (unparsed_message_artifact undecodable_quarantine_down_world sample_event
              sample_config (mk_bq "invoice-prod")
              (OtherException "JSONDecodeError"
                              "Expecting value: line 1 column 1 (char 0)")
              bucket path data r eq_refl eq_refl (or_introl eq_refl))
    as (Hpath & _).
  { rewrite Hwrites. left. reflexivity. }
  injection Hwrites as _ _ _ _ <-. simpl. rewrite Hpath. reflexivity.
Defined.

(** X6. The error artifact and the failure record of the metrics tell the
    same story: the record written to the bucket carries the error message,
    the source file and the invoice id of the metrics call of the [except]
    clause. *)
Theorem artifact_matches_metrics w ce args r bucket path data rs :
  In (args, r) (metrics_calls (events w ce)) →
  MetricsArgs.success args = false →
  In (bucket, path, data, rs) (storage_writes (events w ce)) →
  ∃ metadata context,
    get "error_metadata" data = Some metadata ∧
    get "invoice_context" data = Some context ∧
    get "error_message" metadata = JStr <$> MetricsArgs.error_message args ∧
    get "source_file" context = Some (JStr (MetricsArgs.source_file args)) ∧
    get "invoice_id" context = Some (JStr (MetricsArgs.invoice_id args)).
Proof.
  unfold_handler.
  repeat case_call; intros Hin Hs Hw.
  all: simpl in Hin, Hw.
  all: try (destruct Hw; fail).
  all: destruct Hw as [Hw | []].
  all: injection Hw as <- <- <- <-.
  all: repeat match goal with
              | H : _ ∨ _ |- _ => destruct H as [H | H]
              | H : False |- _ => destruct H
              end.
  all: match goal with H : (_, _) = (_, _) |- _ => injection H as <- <- end.
  all: try discriminate Hs.
  all: match goal with
       | |- context [_create_error_record ?sf ?iid ?e ?raw ?m ?ts] =>
           destruct (error_record_fields sf iid e raw m ts)
             as (metadata & context & Hm & Hc & _ & Hmsg & _ & Hsf & Hid);
           exists metadata, context
       end.
  all: repeat split; assumption.
Qed.

Lemma artifact_matches_metrics_witness :
  let data :=
    _create_error_record (InvoiceExtractedMessage.source_file sample_message)
      "INV-UE-123"
      (RuntimeError "BigQuery write failed: 403 Access Denied: Table invoices")
      sample_raw_message (Some sample_message) sample_time in
  ∃ metadata,
    get "error_metadata" data = Some metadata ∧
    get "error_message" metadata
    = Some (JStr "BigQuery write failed: 403 Access Denied: Table invoices").
Proof.
  intros data.
  destruct (artifact_matches_metrics write_refused_world sample_event
              (failure_metrics_args sample_config (mk_bq "invoice-prod")
                 (mk_locals (InvoiceExtractedMessage.source_file sample_message)
                            "INV-UE-123" (Some sample_raw_message) (Some sample_message))
                 (RuntimeError "BigQuery write failed: 403 Access Denied: Table invoices"))
              (Ok tt) "invoice-failed" "ubereats_INV-UE-123.error.json" data
              (Ok "gs://invoice-failed/ubereats_INV-UE-123.error.json"))
    as (metadata & context & Hm & _ & Hmsg & _).
  { vm_compute. left. reflexivity. }
  { reflexivity. }
  { vm_compute. left. reflexivity. }
  exists metadata. split; [exact Hm | exact Hmsg].
Defined.

Lemma append_assoc (a b c : string) : (a ++ b) ++ c = a ++ b ++ c.
Proof. induction a; simpl; [reflexivity | by f_equal]. Qed.

(** Every name ends with [.error.json]. *)
Lemma filename_extension now source_file invoice_id :
  ∃ stem, _generate_error_filename now source_file invoice_id = stem ++ ".error.json".
Proof.
  unfold _generate_error_filename.
  destruct (str.truthy source_file && negb (source_file =? "unknown")%string);
    [eexists; reflexivity |].
  destruct (str.truthy invoice_id && negb (invoice_id =? "unknown")%string);
    [eexists; reflexivity |].
  exists ("unknown_" ++ strftime_Ymd_HMS now). by rewrite append_assoc.
Qed.

Lemma error_record_keys source_file invoice_id error raw_message message timestamp :
  keys (_create_error_record source_file invoice_id error raw_message message timestamp)
  = ["error_metadata"; "invoice_context"; "extracted_data"; "raw_message";
     "remediation_hints"].
Proof. unfold _create_error_record. destruct message; reflexivity. Qed.

Ltac split_events :=
  repeat match goal with
         | H : In _ _ |- _ => simpl in H
         | H : _ ∨ _ |- _ => destruct H as [H | H]
         | H : False |- _ => destruct H
         | H : EvStorageWrite _ _ _ _ _ = EvStorageWrite _ _ _ _ _ |- _ =>
             injection H as <- <- <- <- <-
         | H : _ = EvStorageWrite _ _ _ _ _ |- _ => discriminate H
         end.

(** X7. Every storage write of the handler puts a JSON object with the five
    keys of an error record in the failed bucket of the configuration, under a
    name that ends with [.error.json], through a storage adapter built for the
    project of the configuration. *)
Theorem storage_write_target w ce config bucket path data content_type r :
  w_get_config w = Ok config →
  In (EvStorageWrite bucket path data content_type r) (events w ce) →
  bucket = Config.failed_bucket config ∧
  content_type = "application/json" ∧
  (∃ stem, path = stem ++ ".error.json") ∧
  keys data = ["error_metadata"; "invoice_context"; "extracted_data"; "raw_message";
               "remediation_hints"] ∧
  ∃ storage, In (EvGCSAdapter (Config.project_id config) (Ok storage)) (events w ce).
Proof.
  intros Hconfig. unfold_handler. rewrite Hconfig. simpl.
  repeat case_call; intros Hin; split_events.
  all: split; [reflexivity |]; split; [reflexivity |].
  all: split; [apply filename_extension |]; split; [apply error_record_keys |].
  all: eexists; simpl; eauto 12.
Qed.

Lemma storage_write_target_witness :
  ∃ storage,
    In (EvGCSAdapter "invoice-prod" (Ok storage))
       (events missing_invoice_id_world sample_event).
Proof.
  destruct (storage_write_target missing_invoice_id_world sample_event sample_config
              "invoice-failed" "ubereats_INV-UE-123.error.json"
              (_create_error_record
                 (InvoiceExtractedMessage.source_file sample_message) "unknown"
                 missing_invoice_id_error sample_raw_message (Some sample_message)
                 sample_time)
              "application/json"
              (Ok "gs://invoice-failed/ubereats_INV-UE-123.error.json") eq_refl)
    as (_ & _ & _ & _ & Hadapter).
  { vm_compute. do 7 right. left. reflexivity. }
  exact Hadapter.
Defined.

(** What an error record keeps of the message. *)
Lemma error_record_of_message source_file invoice_id error raw_message message timestamp :
  let data :=
    _create_error_record source_file invoice_id error raw_message (Some message)
      timestamp in
  get "raw_message" data = Some raw_message ∧
  get "extracted_data" data = Some (InvoiceExtractedMessage.extracted_data message) ∧
  ∃ context,
    get "invoice_context" data = Some context ∧
    get "vendor_type" context
    = Some (JStr (VendorType.value (InvoiceExtractedMessage.vendor_type message))) ∧
    get "extraction_model" context
    = Some (JStr (InvoiceExtractedMessage.extraction_model message)) ∧
    get "confidence_score" context
    = Some (JFloat (InvoiceExtractedMessage.confidence_score message)).
Proof. repeat split. eexists. repeat split. Qed.

(** X8. Once the envelope is validated, the record of every error artifact
    keeps the decoded payload as raw message, the extracted data of the
    message, and its vendor, model and confidence score: the real score, where
    the failure record of the metrics says 0.0. *)
Theorem parsed_message_artifact w ce config bq raw message bucket path data r :
  w_get_config w = Ok config →
  w_bigquery_adapter w (Config.project_id config) = Ok bq →
  w_decode w ce = Ok raw →
  w_validate_message w raw = Ok message →
  In (bucket, path, data, r) (storage_writes (events w ce)) →
  get "raw_message" data = Some raw ∧
  get "extracted_data" data = Some (InvoiceExtractedMessage.extracted_data message) ∧
  ∃ context,
    get "invoice_context" data = Some context ∧
    get "vendor_type" context
    = Some (JStr (VendorType.value (InvoiceExtractedMessage.vendor_type message))) ∧
    get "extraction_model" context
    = Some (JStr (InvoiceExtractedMessage.extraction_model message)) ∧
    get "confidence_score" context
    = Some (JFloat (InvoiceExtractedMessage.confidence_score message)).
Proof.
  intros Hconfig Hadapter Hdecode Hmessage. after_setup Hconfig Hadapter.
  rewrite Hdecode; simpl. rewrite Hmessage; simpl.
  repeat case_call; intros Hin; simpl in Hin;
    try (destruct Hin; fail); destruct Hin as [Hin | []];
    injection Hin as <- <- <- <-; apply error_record_of_message.
Qed.

Lemma parsed_message_artifact_witness :
  ∃ context,
    get "invoice_context"
        (_create_error_record (InvoiceExtractedMessage.source_file sample_message)
           "INV-UE-123"
           (RuntimeError "BigQuery write failed: 403 Access Denied: Table invoices")
           sample_raw_message (Some sample_message) sample_time)
    = Some context ∧
    get "confidence_score" context = Some (JFloat 0.75%float).
Proof.
  destruct (parsed_message_artifact write_refused_world sample_event sample_config
              (mk_bq "invoice-prod") sample_raw_message sample_message
              "invoice-failed" "ubereats_INV-UE-123.error.json"
              (_create_error_record (InvoiceExtractedMessage.source_file sample_message)
                 "INV-UE-123"
                 (RuntimeError "BigQuery write failed: 403 Access Denied: Table invoices")
                 sample_raw_message (Some sample_message) sample_time)
              (Ok "gs://invoice-failed/ubereats_INV-UE-123.error.json")
              eq_refl eq_refl eq_refl eq_refl)
    as (_ & _ & context & Hc & _ & _ & Hscore).
  { vm_compute. left. reflexivity. }
  exists context. split; assumption.
Defined.

(** X9. When the invoice write reports [success=False], the error artifact
    describes a [RuntimeError], not a validation error: no validation details,
    and the single generic hint.  It is named after the source file and the
    invoice id of the validated invoice. *)
Theorem refused_write_artifact
    w ce config bq raw message invoice result bucket path data r :
  w_get_config w = Ok config →
  w_bigquery_adapter w (Config.project_id config) = Ok bq →
  w_decode w ce = Ok raw →
  w_validate_message w raw = Ok message →
  w_validate_invoice w (InvoiceExtractedMessage.extracted_data message) = Ok invoice →
  w_write_invoice w (invoice_args_of config bq message invoice) = Ok result →
  WriteResult.success result = false →
  In (bucket, path, data, r) (storage_writes (events w ce)) →
  path = _generate_error_filename (w_now w)
           (InvoiceExtractedMessage.source_file message)
           (ExtractedInvoice.invoice_id invoice) ∧
  get "remediation_hints" data = Some (JList [JStr generic_hint]) ∧
  ∃ metadata,
    get "error_metadata" data = Some metadata ∧
    get "error_type" metadata = Some (JStr "RuntimeError") ∧
    get "error_message" metadata
    = Some (JStr ("BigQuery write failed: "
                  ++ format_optional (WriteResult.error result))) ∧
    get "is_validation_error" metadata = Some (JBool false) ∧
    get "validation_details" metadata = Some JNull.
Proof.
  intros Hconfig Hadapter Hdecode Hmessage Hinvoice Hwrite Hsuccess.
  unfold invoice_args_of in Hwrite.
  after_setup Hconfig Hadapter.
  rewrite Hdecode; simpl. rewrite Hmessage; simpl. rewrite Hinvoice; simpl.
  rewrite Hwrite; simpl. rewrite Hsuccess; simpl.
  repeat case_call; intros Hin; simpl in Hin;
    try (destruct Hin; fail); destruct Hin as [Hin | []];
    injection Hin as <- <- <- <-.
  all: split; [reflexivity |]; split; [reflexivity |].
  all: eexists; repeat split; reflexivity.
Qed.

Lemma refused_write_artifact_witness :
  List.map (λ a, snd (fst (fst a)))
    (storage_writes (events write_refused_world sample_event))
  = ["ubereats_INV-UE-123.error.json"].
Proof.
  destruct (storage_writes (events write_refused_world sample_event))
    as [| [[[bucket path] data] r] rest] eqn:Hwrites; [discriminate Hwrites |].
  destruct (refused_write_artifact write_refused_world sample_event sample_config
              (mk_bq "invoice-prod") sample_raw_message sample_message sample_invoice
              failed_write bucket path data r
              eq_refl eq_refl eq_refl eq_refl eq_refl eq_refl eq_refl)
    as (Hpath & _).
  { rewrite Hwrites. left. reflexivity. }
  vm_compute in Hwrites. injection Hwrites as _ _ _ _ <-.
  simpl. rewrite Hpath. reflexivity.
Defined.

(** X10. When the message gives no usable source file (empty, or the
    placeholder ["unknown"]) and the invoice was validated with a usable id,
    the error artifact is named after the invoice id. *)
Theorem artifact_named_by_invoice
    w ce config bq raw message invoice bucket path data r :
  w_get_config w = Ok config →
  w_bigquery_adapter w (Config.project_id config) = Ok bq →
  w_decode w ce = Ok raw →
  w_validate_message w raw = Ok message →
  w_validate_invoice w (InvoiceExtractedMessage.extracted_data message) = Ok invoice →
  ¬ known (InvoiceExtractedMessage.source_file message) →
  known (ExtractedInvoice.invoice_id invoice) →
  In (bucket, path, data, r) (storage_writes (events w ce)) →
  path = ExtractedInvoice.invoice_id invoice ++ ".error.json".
Proof.
  intros Hconfig Hadapter Hdecode Hmessage Hinvoice Hsource Hid.
  after_setup Hconfig Hadapter.
  rewrite Hdecode; simpl. rewrite Hmessage; simpl. rewrite Hinvoice; simpl.
  repeat case_call; intros Hin; simpl in Hin;
    try (destruct Hin; fail); destruct Hin as [Hin | []];
    injection Hin as <- <- <- <-;
    by apply filename_of_known_invoice.
Qed.

Lemma artifact_named_by_invoice_witness :
  List.length (storage_writes (events unnamed_refused_world sample_event)) = 1%nat ∧
  List.Forall (λ a, snd (fst (fst a)) = "INV-GH-456.error.json")
              (storage_writes (events unnamed_refused_world sample_event)).
Proof.
  split; [vm_compute; reflexivity |].
  apply List.Forall_forall. intros [[[bucket path] data] r] Hin.
  apply (artifact_named_by_invoice unnamed_refused_world sample_event sample_config
           (mk_bq "invoice-prod") (JDict []) unnamed_message unnamed_invoice
           bucket path data r eq_refl eq_refl eq_refl eq_refl eq_refl).
  - intros [_ H]. by apply H.
  - split; discriminate.
  - exact Hin.
Defined.

(** X17. The two calls of the [except] clause do not depend on each other.
    Whether the metrics call with [success=False] returns or raises changes
    neither how the handler ends nor what is written to the bucket; and what
    the storage adapter and the storage write do changes neither how the
    handler ends nor the metrics calls. *)
Theorem failure_calls_independent w ce :
  (∀ g,
     (∀ args, MetricsArgs.success args = true → g args = w_write_metrics w args) →
     outcome (with_write_metrics g w) ce = outcome w ce ∧
     storage_writes (events (with_write_metrics g w) ce)
     = storage_writes (events w ce)) ∧
  (∀ adapter write,
     outcome (with_storage_write write (with_gcs_adapter adapter w)) ce = outcome w ce ∧
     metrics_calls (events (with_storage_write write (with_gcs_adapter adapter w)) ce)
     = metrics_calls (events w ce)).
Proof.
  split.
  - intros g Hagree. unfold_handler.
    destruct (w_get_config w) as [config |]; simpl; [| by split].
    destruct (w_bigquery_adapter w (Config.project_id config)) as [bq |]; simpl;
      [| by split].
    destruct (w_decode w ce) as [raw |]; simpl.
    2: { repeat case_call; simplify_eq; by split. }
    destruct (w_validate_message w raw) as [message |]; simpl.
    2: { repeat case_call; simplify_eq; by split. }
    destruct (w_validate_invoice w (InvoiceExtractedMessage.extracted_data message))
      as [invoice |]; simpl.
    2: { repeat case_call; simplify_eq; by split. }
    match goal with
    | |- context [w_write_invoice _ ?a] => destruct (w_write_invoice w a) as [result |]
    end; simpl.
    2: { repeat case_call; simplify_eq; by split. }
    destruct (WriteResult.success result); simpl.
    2: { repeat case_call; simplify_eq; by split. }
    rewrite (Hagree (MetricsArgs.mk _ _ _ _ _ _ _ _ _ true None) eq_refl).
    repeat case_call; simplify_eq; by split.
  - intros adapter write. unfold_handler.
    repeat case_call; simplify_eq; by split.
Qed.

Lemma failure_calls_independent_witness :
  outcome failure_metrics_down_world sample_event
  = outcome write_refused_world sample_event ∧
  storage_writes (events failure_metrics_down_world sample_event)
  = storage_writes (events write_refused_world sample_event).
Proof.
  apply (proj1 (failure_calls_independent write_refused_world sample_event)
           failure_metrics_rejected).
  intros args Hsuccess. unfold failure_metrics_rejected. by rewrite Hsuccess.
Defined.

(** * Further properties of the helpers *)

Lemma length_append (a b : string) :
  String.length (a ++ b) = (String.length a + String.length b)%nat.
Proof. induction a; simpl; [reflexivity | by f_equal]. Qed.

Lemma substring_length n s : (String.length (String.substring 0 n s) ≤ n)%nat.
Proof.
  revert n. induction s as [| c s IH]; intros [| n]; simpl; try lia.
  specialize (IH n). lia.
Qed.

Lemma substring_short n s :
  (String.length s ≤ n)%nat → String.substring 0 n s = s.
Proof.
  revert n. induction s as [| c s IH]; intros [| n] H; simpl in *;
    try reflexivity; try lia.
  f_equal. apply IH. lia.
Qed.

Lemma substring_prefix n s : ∃ rest, s = String.substring 0 n s ++ rest.
Proof.
  revert n. induction s as [| c s IH]; intros [| n]; simpl.
  - by exists "".
  - by exists "".
  - by exists (String c s).
  - destruct (IH n) as [rest Hrest]. exists rest. by f_equal.
Qed.

(** X11. For a validation error, [validation_details.errors] has one entry
    for each reported error, in order, and the [input] of an entry is at most
    200 characters long: the start of [str(input)], all of it when it is
    short enough, and the empty string when the error has no input. *)
Theorem validation_inputs_truncated
    source_file invoice_id text errors raw_message message timestamp :
  ∃ metadata entries,
    get "error_metadata"
        (_create_error_record source_file invoice_id (ValidationError text errors)
           raw_message message timestamp)
    = Some metadata ∧
    get "validation_details" metadata
    = Some (JDict [("error_count", JInt (Z.of_nat (List.length errors)));
                   ("errors", JList entries)]) ∧
    List.length entries = List.length errors ∧
    ∀ i err,
      errors !! i = Some err →
      ∃ entry shown,
        entries !! i = Some entry ∧
        get "field" entry = Some (JStr (field_of err)) ∧
        get "type" entry = Some (JStr (ErrorDetails.type err)) ∧
        get "input" entry = Some (JStr shown) ∧
        (String.length shown ≤ 200)%nat ∧
        (∃ rest, default "" (ErrorDetails.input err) = shown ++ rest) ∧
        ((String.length (default "" (ErrorDetails.input err)) ≤ 200)%nat →
         shown = default "" (ErrorDetails.input err)).
Proof.
  exists (JDict [
       ("timestamp", JStr (isoformat_utc timestamp));
       ("failed_stage", JStr "bigquery-writer");
       ("error_type", JStr "ValidationError");
       ("error_message", JStr text);
       ("is_validation_error", JBool true);
       ("validation_details",
        JDict [("error_count", JInt (Z.of_nat (List.length errors)));
               ("errors", JList (List.map validation_entry errors))]) ]),
    (List.map validation_entry errors).
  split; [unfold _create_error_record; destruct message; reflexivity |].
  split; [reflexivity |]. split; [apply length_map |].
  intros i err Herr.
  exists (validation_entry err),
         (str.truncate 200 (default "" (ErrorDetails.input err))).
  split; [by rewrite list_lookup_fmap, Herr |].
  repeat split.
  - apply substring_length.
  - apply substring_prefix.
  - apply substring_short.
Qed.

Lemma validation_inputs_truncated_witness :
  ∃ entry,
    get "input" entry = Some (JStr "{'vendor_type': 'ubereats'}") ∧
    get "field" entry = Some (JStr "invoice_id").
Proof.
  destruct (validation_inputs_truncated "unknown" "unknown"
              "1 validation error for ExtractedInvoice"
              [ErrorDetails.mk [LocStr "invoice_id"] "missing" "Field required"
                               (Some "{'vendor_type': 'ubereats'}")]
              (JDict []) None sample_time)
    as (metadata & entries & _ & _ & _ & Hentries).
  destruct (Hentries 0%nat _ eq_refl)
    as (entry & shown & _ & Hfield & _ & Hinput & _ & _ & Hshort).
  exists entry. split; [| exact Hfield].
  rewrite Hinput. f_equal. f_equal. apply Hshort. simpl. lia.
Defined.

Lemma omap_length {A B : Type} (f : A → option B) (l : list A) :
  (List.length (omap f l) ≤ List.length l)%nat.
Proof.
  induction l as [| a l IH]; [reflexivity |].
  change (omap f (a :: l))
    with (match f a with Some y => y :: omap f l | None => omap f l end).
  destruct (f a); simpl; lia.
Qed.

Lemma hint_text_not_generic kind field : hint_text kind field ≠ generic_hint.
Proof. destruct kind; discriminate. Qed.

(** X12. The list of hints is never empty and never longer than the list of
    reported errors, one hint apart; and the generic hint is in it exactly
    when no reported error was recognised, in which case it is alone. *)
Theorem remediation_hints_bounds error :
  (1 ≤ List.length (_generate_remediation_hints error))%nat ∧
  (List.length (_generate_remediation_hints error)
   ≤ Nat.max 1 (List.length (errors_of error)))%nat ∧
  (In generic_hint (_generate_remediation_hints error)
   ↔ omap hint_of (errors_of error) = []) ∧
  (In generic_hint (_generate_remediation_hints error)
   → _generate_remediation_hints error = [generic_hint]).
Proof.
  rewrite remediation_hints_unfold.
  pose proof (omap_length hint_of (errors_of error)) as Hlen.
  assert (Hnot : ¬ In generic_hint (omap hint_of (errors_of error))).
  { intros Hin. apply list_elem_of_In, list_elem_of_omap in Hin as (err & _ & Hhint).
    unfold hint_of in Hhint. destruct (classify (ErrorDetails.type err)); [| discriminate].
    injection Hhint as Hhint. by apply hint_text_not_generic in Hhint. }
  destruct (omap hint_of (errors_of error)) as [| hint hints] eqn:Hrec; simpl in *.
  - repeat split; try lia; intros; auto.
  - repeat split; try lia; intros H; try discriminate; exfalso; tauto.
Qed.

Lemma remediation_hints_bounds_witness :
  _generate_remediation_hints (OtherException "TimeoutError" "deadline exceeded")
  = [generic_hint].
Proof.
  apply (proj2 (proj2 (proj2 (remediation_hints_bounds
                                (OtherException "TimeoutError" "deadline exceeded"))))).
  left. reflexivity.
Defined.

Lemma avoids_append c a b : avoids c (a ++ b) = avoids c a && avoids c b.
Proof. induction a; simpl; [reflexivity | by rewrite IHa, andb_assoc]. Qed.

Lemma split_not_empty sep s : str.split sep s ≠ [].
Proof.
  destruct s as [| c s]; simpl; [discriminate |].
  destruct (Ascii.eqb c sep); [discriminate |].
  destruct (str.split sep s); discriminate.
Qed.

(** Splitting distributes over a separator. *)
Lemma split_append sep d n :
  str.split sep (d ++ String sep n) = (str.split sep d ++ str.split sep n)%list.
Proof.
  induction d as [| c d IH]; simpl.
  - by rewrite Ascii.eqb_refl.
  - rewrite IH. destruct (Ascii.eqb c sep); [reflexivity |].
    pose proof (split_not_empty sep d) as Hne.
    destruct (str.split sep d); [congruence | reflexivity].
Qed.

Lemma split_avoiding sep n : avoids sep n = true → str.split sep n = [n].
Proof.
  induction n as [| c n IH]; simpl; [reflexivity |].
  intros H. apply andb_true_iff in H as [Hc Hn].
  apply negb_true_iff in Hc. rewrite Hc, (IH Hn). reflexivity.
Qed.

(** The name of a path is its last component. *)
Lemma name_of_path dir name :
  avoids "/" name = true → name ≠ "" → name ≠ "." →
  pathlib.name (dir ++ "/" ++ name) = name.
Proof.
  intros Havoid Hne Hdot. unfold pathlib.name, pathlib.tail.
  change ("/" ++ name) with (String "/" name).
  rewrite split_append, (split_avoiding _ _ Havoid), List.filter_app. simpl.
  apply String.eqb_neq in Hne, Hdot. rewrite Hne, Hdot. simpl.
  apply List.last_last.
Qed.

Lemma name_of_component name :
  avoids "/" name = true → name ≠ "" → name ≠ "." → pathlib.name name = name.
Proof.
  intros Havoid Hne Hdot. unfold pathlib.name, pathlib.tail.
  rewrite (split_avoiding _ _ Havoid). simpl.
  apply String.eqb_neq in Hne, Hdot. by rewrite Hne, Hdot.
Qed.

(** X13. The key of a known source file depends on the last component of
    its path only: files of the same name in different buckets or
    directories share one error file. *)
Theorem key_ignores_directory now now' dir dir' name invoice_id invoice_id' :
  avoids "/" name = true → name ≠ "" → name ≠ "." →
  _generate_error_filename now (dir ++ "/" ++ name) invoice_id
  = _generate_error_filename now' (dir' ++ "/" ++ name) invoice_id' ∧
  _generate_error_filename now (dir ++ "/" ++ name) invoice_id = source_key name.
Proof.
  intros Havoid Hne Hdot.
  assert (Hknown : ∀ d, known (d ++ "/" ++ name)).
  { intros d. split.
    - destruct d; discriminate.
    - intros Heq. assert (H : avoids "/" (d ++ "/" ++ name) = true) by by rewrite Heq.
      rewrite avoids_append in H. simpl in H. by rewrite andb_false_r in H. }
  assert (Hkey : ∀ d, source_key (d ++ "/" ++ name) = source_key name).
  { intros d. unfold source_key, pathlib.stem.
    by rewrite name_of_path, name_of_component. }
  rewrite !filename_of_known_source by apply Hknown.
  by rewrite !Hkey.
Qed.

Lemma key_ignores_directory_witness :
  _generate_error_filename sample_time "gs://bucket/landing/ubereats_INV-UE-123_page2.tiff"
    "unknown"
  = _generate_error_filename sample_time "gs://other/archive/2024/ubereats_INV-UE-123_page2.tiff"
      "INV-UE-123".
Proof.
  apply (proj1 (key_ignores_directory sample_time sample_time
                  "gs://bucket/landing" "gs://other/archive/2024"
                  "ubereats_INV-UE-123_page2.tiff" "unknown" "INV-UE-123"
                  eq_refl ltac:(discriminate) ltac:(discriminate))).
Defined.

Lemma rfind_avoiding c s : avoids c s = true → str.rfind c s = -1.
Proof.
  induction s as [| a s IH]; simpl; [reflexivity |].
  intros H. apply andb_true_iff in H as [Ha Hs]. rewrite (IH Hs). simpl.
  apply negb_true_iff in Ha. by rewrite Ha.
Qed.

Lemma rfind_last c base ext :
  avoids c ext = true →
  str.rfind c (base ++ String c ext) = Z.of_nat (String.length base).
Proof.
  intros Hext. induction base as [| a base IH].
  - simpl. rewrite (rfind_avoiding _ _ Hext). simpl. by rewrite Ascii.eqb_refl.
  - change (String a base ++ String c ext) with (String a (base ++ String c ext)).
    cbn [str.rfind]. rewrite IH.
    destruct (0 <=? Z.of_nat (String.length base)) eqn:E; [| lia].
    simpl String.length. lia.
Qed.

Lemma take_append base rest :
  str.take (Z.of_nat (String.length base)) (base ++ rest) = base.
Proof.
  unfold str.take. rewrite Nat2Z.id.
  induction base as [| a base IH]; simpl; [by destruct rest | by f_equal].
Qed.

(** The stem of [base.ext] is [base]. *)
Lemma stem_of_file base ext :
  avoids "/" base = true → avoids "/" ext = true → avoids "." ext = true →
  base ≠ "" → ext ≠ "" →
  pathlib.stem (base ++ "." ++ ext) = base.
Proof.
  intros Hbase Hext Hdot Hb He. unfold pathlib.stem.
  rewrite name_of_component.
  - change ("." ++ ext) with (String "." ext).
    rewrite (rfind_last _ _ _ Hdot), length_append. simpl String.length.
    assert (0 < String.length base)%nat by (destruct base; simpl; [congruence | lia]).
    assert (0 < String.length ext)%nat by (destruct ext; simpl; [congruence | lia]).
    assert (E1 : (0 <? Z.of_nat (String.length base)) = true)
      by (apply Z.ltb_lt; lia).
    assert (E2 : (Z.of_nat (String.length base)
                  <? Z.of_nat (String.length base + S (String.length ext)) - 1) = true)
      by (apply Z.ltb_lt; lia).
    rewrite E1, E2. simpl. apply take_append.
  - rewrite avoids_append. simpl. by rewrite Hbase, Hext.
  - destruct base; [congruence | discriminate].
  - destruct base as [| a [| b base]]; [congruence | | discriminate].
    simpl. destruct ext; [congruence | discriminate].
Qed.

Lemma digits_avoid c ds :
  re.is_digit c = false → all_digits ds = true → avoids c ds = true.
Proof.
  intros Hc. induction ds as [| d ds IH]; simpl; [reflexivity |].
  intros H. apply andb_true_iff in H as [Hd Hds]. rewrite (IH Hds), andb_true_r.
  apply negb_true_iff, Ascii.eqb_neq. intros ->. congruence.
Qed.

Lemma digits_no_line_feed ds : all_digits ds = true → no_line_feed ds = true.
Proof.
  induction ds as [| d ds IH]; simpl; [reflexivity |].
  intros H. apply andb_true_iff in H as [Hd Hds]. rewrite (IH Hds), andb_true_r.
  apply negb_true_iff, Ascii.eqb_neq. intros ->. discriminate Hd.
Qed.

(** The key of a page of a document. *)
Lemma source_key_of_page dir doc ds ext :
  avoids "/" doc = true → no_line_feed doc = true →
  ds ≠ "" → all_digits ds = true →
  ext ≠ "" → avoids "/" ext = true → avoids "." ext = true →
  source_key (dir ++ "/" ++ (doc ++ "_page" ++ ds) ++ "." ++ ext)
  = doc ++ ".error.json".
Proof.
  intros Hdoc Hlf Hds Hdigits Hext Hslash Hdot.
  assert (Hbase : avoids "/" (doc ++ "_page" ++ ds) = true).
  { rewrite !avoids_append, Hdoc, (digits_avoid "/" ds eq_refl Hdigits). reflexivity. }
  assert (Hne : doc ++ "_page" ++ ds ≠ "") by (destruct doc; discriminate).
  assert (Hstem : pathlib.stem (dir ++ "/" ++ (doc ++ "_page" ++ ds) ++ "." ++ ext)
                  = doc ++ "_page" ++ ds).
  { assert (Havoid : avoids "/" ((doc ++ "_page" ++ ds) ++ "." ++ ext) = true).
    { rewrite avoids_append, Hbase. simpl. exact Hslash. }
    assert (Hfull : (doc ++ "_page" ++ ds) ++ "." ++ ext ≠ "")
      by (destruct doc; discriminate).
    assert (Hnotdot : (doc ++ "_page" ++ ds) ++ "." ++ ext ≠ ".")
      by (destruct doc as [| a [| b doc]]; discriminate).
    rewrite <- (stem_of_file _ ext Hbase Hslash Hdot Hne Hext) at 2.
    unfold pathlib.stem.
    by rewrite (name_of_path _ _ Havoid Hfull Hnotdot),
               (name_of_component _ Havoid Hfull Hnotdot). }
  unfold source_key. rewrite Hstem. f_equal.
  apply sub_strips_page_suffix.
  - by exists ds.
  - rewrite !no_line_feed_append, Hlf, (digits_no_line_feed ds Hdigits). reflexivity.
Qed.

Lemma slash_path_known dir rest : known (dir ++ "/" ++ rest).
Proof.
  split.
  - destruct dir; discriminate.
  - intros Heq. assert (H : avoids "/" (dir ++ "/" ++ rest) = true) by by rewrite Heq.
    rewrite avoids_append in H. simpl in H. by rewrite andb_false_r in H.
Qed.

(** X14. All the pages of a document share one error file: for a source file
    [<doc>_page<digits>.<ext>] in any directory, the name of the error file is
    [<doc>.error.json], whatever the page number, the extension, the invoice
    id and the clock. *)
Theorem pages_share_one_key now dir doc ds ext invoice_id :
  avoids "/" doc = true → no_line_feed doc = true →
  ds ≠ "" → all_digits ds = true →
  ext ≠ "" → avoids "/" ext = true → avoids "." ext = true →
  _generate_error_filename now (dir ++ "/" ++ (doc ++ "_page" ++ ds) ++ "." ++ ext)
    invoice_id
  = doc ++ ".error.json".
Proof.
  intros Hdoc Hlf Hds Hdigits Hext Hslash Hdot.
  rewrite filename_of_known_source by apply slash_path_known.
  by apply source_key_of_page.
Qed.

Lemma pages_share_one_key_witness :
  _generate_error_filename sample_time
    "gs://bucket/landing/ubereats_INV-UE-123_page2.tiff" "unknown"
  = "ubereats_INV-UE-123.error.json" ∧
  _generate_error_filename sample_time
    "gs://bucket/landing/ubereats_INV-UE-123_page17.png" "INV-UE-123"
  = "ubereats_INV-UE-123.error.json".
Proof.
  split.
  - apply (pages_share_one_key sample_time "gs://bucket/landing" "ubereats_INV-UE-123"
             "2" "tiff" "unknown"); (reflexivity || discriminate).
  - apply (pages_share_one_key sample_time "gs://bucket/landing" "ubereats_INV-UE-123"
             "17" "png" "INV-UE-123"); (reflexivity || discriminate).
Defined.

(** X15. On a stem without line feed the substitution removes either nothing
    or exactly one page-number suffix at the end: what is returned is always
    the start of the stem, and the middle of the stem is never touched. *)
Theorem sub_removes_at_most_one_suffix s :
  no_line_feed s = true →
  ∃ t, s = re.sub_page_suffix s ++ t ∧ (t = "" ∨ page_suffix t).
Proof.
  unfold re.sub_page_suffix.
  induction s as [| c s IH]; intros Hlf.
  - exists "". split; [reflexivity | by left].
  - assert (Hlf' : no_line_feed s = true).
    { simpl in Hlf. by apply andb_true_iff in Hlf as [_ ?]. }
    destruct (IH Hlf') as (t & Ht & Hcase).
    cbn [re.sub_page_suffix_from].
    destruct (re.match_page_suffix (String c s)) as [[| k] |] eqn:Hmatch.
    + exists t. split; [simpl; by f_equal | exact Hcase].
    + pose proof (match_page_suffix_sound _ _ Hlf Hmatch) as Hpage.
      rewrite (match_page_suffix_complete _ Hpage Hlf) in Hmatch.
      injection Hmatch as <-. rewrite sub_skips.
      exists (String c s). split; [reflexivity | by right].
    + exists t. split; [simpl; by f_equal | exact Hcase].
Qed.

Lemma sub_removes_at_most_one_suffix_witness :
  ∃ t, "scan_page1_page2" = re.sub_page_suffix "scan_page1_page2" ++ t
       ∧ (t = "" ∨ page_suffix t).
Proof. apply (sub_removes_at_most_one_suffix "scan_page1_page2"). reflexivity. Defined.

Lemma avoids_split sep s :
  List.Forall (λ w, avoids sep w = true) (str.split sep s).
Proof.
  induction s as [| c s IH]; simpl; [by repeat constructor |].
  destruct (Ascii.eqb c sep) eqn:Hc; [by constructor |].
  destruct (str.split sep s) as [| w ws].
  - repeat constructor. simpl. by rewrite Hc.
  - inversion IH; subst. constructor; [| assumption]. simpl. by rewrite Hc.
Qed.

Lemma avoids_substring c n s :
  avoids c s = true → avoids c (String.substring 0 n s) = true.
Proof.
  revert n. induction s as [| a s IH]; intros n H; destruct n; try reflexivity.
  simpl in *. apply andb_true_iff in H as [Ha Hs]. by rewrite Ha, IH.
Qed.

Lemma avoids_sub c skip s :
  avoids c s = true → avoids c (re.sub_page_suffix_from skip s) = true.
Proof.
  revert skip. induction s as [| a s IH]; intros skip H; [reflexivity |].
  simpl in H. apply andb_true_iff in H as [Ha Hs].
  cbn [re.sub_page_suffix_from]. destruct skip as [| k]; [| by apply IH].
  destruct (re.match_page_suffix (String a s)) as [[| k] |].
  - simpl. by rewrite Ha, IH.
  - by apply IH.
  - simpl. by rewrite Ha, IH.
Qed.

(** The key of a source file has no slash. *)
Lemma source_key_flat source_file : avoids "/" (source_key source_file) = true.
Proof.
  unfold source_key. rewrite avoids_append. apply andb_true_iff. split; [| reflexivity].
  apply avoids_sub. unfold pathlib.stem, pathlib.name, pathlib.tail, str.take.
  assert (Hname : avoids "/" (List.last
                    (List.filter (λ x, negb (x =? "")%string && negb (x =? ".")%string)
                                 (str.split "/" source_file)) "") = true).
  { pose proof (avoids_split "/" source_file) as Hall.
    assert (Hf : List.Forall (λ w, avoids "/" w = true)
                   (List.filter (λ x, negb (x =? "")%string && negb (x =? ".")%string)
                                (str.split "/" source_file))).
    { apply List.Forall_forall. intros w Hw. apply List.filter_In in Hw as [Hw _].
      by apply (proj1 (List.Forall_forall _ _) Hall). }
    induction Hf as [| w ws Hw Hws IHf]; [reflexivity |].
    destruct ws; [exact Hw | exact IHf]. }
  match goal with |- context [if ?b then _ else _] => destruct b end.
  - by apply avoids_substring.
  - exact Hname.
Qed.

(** X16. The name of the error file of a known source file never contains a
    slash: error files lie flat at the top of the failed bucket, and nothing
    of the directories of the source file is kept. *)
Theorem error_file_is_flat now source_file invoice_id :
  known source_file →
  avoids "/" (_generate_error_filename now source_file invoice_id) = true.
Proof.
  intros Hknown. rewrite (filename_of_known_source _ _ _ Hknown).
  apply source_key_flat.
Qed.

Lemma error_file_is_flat_witness :
  avoids "/" (_generate_error_filename sample_time
                "gs://bucket/landing/2024/03/ubereats_INV-UE-123_page2.tiff" "unknown")
  = true.
Proof. apply error_file_is_flat. split; discriminate. Defined.
